(** * QrGenerator: colour arithmetic, style resolution and pixel
      recolouring of [AdvancedQRGenerator] (src/qr-generator.js)

    The development embeds the methods [hexToRgb], [rgbToHex],
    [invertColor], [generateQR] and [applyAdvancedStyling] of the class
    [AdvancedQRGenerator], and proves the properties of the colour
    conversions, of the options handed to the encoder, of the per-pixel
    classify-and-recolour sweep and of the handling of a failing
    styling pass.

    Strings are sequences of 8-bit characters, except the text typed
    at the data prompt, which is the list of its UTF-16 code units;
    numbers are integers or [NaN] where the code computes on integers,
    and binary64 doubles where it computes distances.  The
    collaborators of the generator (the QR encoder and the PNG codec)
    are parameters. *)

From Stdlib Require Import ZArith Lia Bool Ascii String List.
From Stdlib Require Import Floats Reals.
From stdpp Require Import list.
Import ListNotations.

Local Open Scope Z_scope.

(* ================================================================== *)
(** * Part I: the program *)
(* ================================================================== *)

(* ================================================================== *)
(** ** JavaScript numbers, strings and conversions *)
(* ================================================================== *)

(** The numbers the colour code handles are integers or [NaN] (the
    result of [parseInt] on a string without digits).  Integers of
    magnitude below 2^53 are exact doubles; every sum formed below stays
    far under that bound. *)
Inductive number : Type :=
| NaN
| Int (z : Z).

Module JS.

(** An integer wrapped into the signed 32-bit range. *)
Definition wrap32 (z : Z) : Z := (z + 2 ^ 31) mod 2 ^ 32 - 2 ^ 31.

(** [ToInt32]: [NaN] becomes 0, an integer is wrapped. *)
Definition ToInt32 (x : number) : Z :=
  match x with
  | NaN => 0
  | Int z => wrap32 z
  end.

(** The left shift of 32-bit integers: the count is masked to five
    bits and the result wrapped. *)
Definition shl32 (a k : Z) : Z := wrap32 (Z.shiftl a (Z.land k 31)).

(** [x << n] *)
Definition shl (x n : number) : number :=
  Int (shl32 (ToInt32 x) (ToInt32 n)).

(** [x + y] and [x - y] on numbers. *)
Definition add (x y : number) : number :=
  match x, y with
  | Int a, Int b => Int (a + b)
  | _, _ => NaN
  end.

Definition sub (x y : number) : number :=
  match x, y with
  | Int a, Int b => Int (a - b)
  | _, _ => NaN
  end.

(** [x > y] on numbers; any comparison with [NaN] is false. *)
Definition gt (x y : number) : bool :=
  match x, y with
  | Int a, Int b => b <? a
  | _, _ => false
  end.

(** Truthiness of a number: 0 and [NaN] are falsy. *)
Definition truthy_number (x : number) : bool :=
  match x with
  | NaN => false
  | Int z => negb (z =? 0)
  end.

(** Truthiness of a string: only the empty string is falsy. *)
Definition truthy_string (s : string) : bool :=
  match s with
  | EmptyString => false
  | String _ _ => true
  end.

(** [v || d] where [v] is a string or [undefined] ([None]). *)
Definition or_string (v : option string) (d : string) : string :=
  match v with
  | Some s => if truthy_string s then s else d
  | None => d
  end.

(** [s.slice(1)] *)
Definition slice1 (s : string) : string :=
  match s with
  | EmptyString => EmptyString
  | String _ rest => rest
  end.

(** The code unit of a character. *)
Definition code (c : ascii) : Z := Z.of_N (N_of_ascii c).

(** Value of a character as a digit in a radix up to 36, as [parseInt]
    reads it: letters count from 10 in either case. *)
Definition digit_val (c : ascii) : option Z :=
  let n := code c in
  if (48 <=? n) && (n <=? 57) then Some (n - 48)
  else if (97 <=? n) && (n <=? 122) then Some (n - 87)
  else if (65 <=? n) && (n <=? 90) then Some (n - 55)
  else None.

(** Value of a character as a hexadecimal digit. *)
Definition hex_val (c : ascii) : option Z :=
  match digit_val c with
  | Some d => if d <? 16 then Some d else None
  | None => None
  end.

(** Longest prefix of hexadecimal digits, accumulated most significant
    digit first; [None] when the prefix is empty. *)
Fixpoint parse_digits16 (s : string) (acc : option Z) : option Z :=
  match s with
  | EmptyString => acc
  | String c rest =>
      match hex_val c with
      | Some d =>
          parse_digits16 rest
            (Some (16 * match acc with Some a => a | None => 0 end + d))
      | None => acc
      end
  end.

(** White space among the 8-bit characters, which are all that the
    strings of [parseInt] hold here: tab to carriage return, space,
    no-break space. *)
Definition is_space (c : ascii) : bool :=
  let n := code c in
  ((9 <=? n) && (n <=? 13)) || (n =? 32) || (n =? 160).

Fixpoint trim_start (s : string) : string :=
  match s with
  | String c rest => if is_space c then trim_start rest else s
  | EmptyString => s
  end.

(** [parseInt(s, 16)]: leading white space is skipped, then an
    optional sign, then an optional [0x]/[0X], then the longest run of
    hexadecimal digits; [NaN] when there is none. *)
Definition parseInt16 (s : string) : number :=
  let s1 := trim_start s in
  let '(sign, s2) :=
    match s1 with
    | String "-" rest => (-1, rest)
    | String "+" rest => (1, rest)
    | _ => (1, s1)
    end in
  let s3 :=
    match s2 with
    | String "0" (String "x" rest) => rest
    | String "0" (String "X" rest) => rest
    | _ => s2
    end in
  match parse_digits16 s3 None with
  | Some v => Int (sign * v)
  | None => NaN
  end.

(** The digit characters [Number.prototype.toString] emits. *)
Definition digit_char (d : Z) : ascii :=
  nth (Z.to_nat d)
    (list_ascii_of_string "0123456789abcdefghijklmnopqrstuvwxyz") "0"%char.

(** Digits of a non-negative integer in radix 16, least significant
    digit produced first and pushed in front of [acc]. *)
Fixpoint to_digits16 (fuel : nat) (n : Z) (acc : string) : string :=
  match fuel with
  | O => acc
  | S fuel' =>
      let acc' := String (digit_char (n mod 16)) acc in
      if n / 16 =? 0 then acc' else to_digits16 fuel' (n / 16) acc'
  end.

(** An integer below [2^k] has at most [k] hexadecimal digits. *)
Definition digits_fuel (n : Z) : nat := S (Z.to_nat (Z.log2 n)).

(** [x.toString(16)] *)
Definition toString16 (x : number) : string :=
  match x with
  | NaN => "NaN"
  | Int n =>
      if n <? 0
      then String "-" (to_digits16 (digits_fuel (- n)) (- n) "")
      else to_digits16 (digits_fuel n) n ""
  end.

End JS.

(* ================================================================== *)
(** ** Regular expressions: the fragment [hexToRgb] uses *)
(* ================================================================== *)

Module Regex.

Inductive regex : Type :=
| Chr (c : ascii)                         (* a literal character *)
| Class (ranges : list (ascii * ascii))   (* [x-y...] *)
| Opt (r : regex)                         (* r?  (greedy) *)
| Seq (r1 r2 : regex)
| Rep (n : nat) (r : regex)               (* r{n} *)
| Group (r : regex).                      (* ( r ), capturing *)

(** Canonicalisation under the [i] flag (no [u] flag): upper-casing,
    which on the characters of the pattern only moves [a-z]. *)
Definition canonicalize (c : ascii) : Z :=
  let n := JS.code c in
  if (97 <=? n) && (n <=? 122) then n - 32 else n.

(** The characters from [lo] to [hi]. *)
Definition chars_of_range (lo hi : ascii) : list ascii :=
  map (fun k => ascii_of_nat k)
    (seq (nat_of_ascii lo) (S (nat_of_ascii hi) - nat_of_ascii lo)).

(** Whether the input character [c] matches the pattern character [x]. *)
Definition char_eq (icase : bool) (x c : ascii) : bool :=
  if icase then canonicalize x =? canonicalize c
  else JS.code x =? JS.code c.

Definition in_class (icase : bool) (ranges : list (ascii * ascii))
           (c : ascii) : bool :=
  existsb
    (fun '(lo, hi) => existsb (fun x => char_eq icase x c)
                        (chars_of_range lo hi))
    ranges.

(** One way of matching a prefix: the text matched, the rest of the
    input, and the captures recorded, in group order. *)
Definition way : Type := string * string * list string.

(** Continue a way [w] with every way [k] matches what it left. *)
Definition then_ (k : string -> list way) (w : way) : list way :=
  let '(m1, rest1, caps1) := w in
  map (fun '(m2, rest2, caps2) =>
         ((m1 ++ m2)%string, rest2, (caps1 ++ caps2)%list))
      (k rest1).

(** Backtracking matcher: every way of matching a prefix of [s], in
    the order a backtracking engine tries them. *)
Fixpoint rmatch (icase : bool) (r : regex) (s : string) : list way :=
  match r with
  | Chr x =>
      match s with
      | String c rest =>
          if char_eq icase x c
          then [(String c EmptyString, rest, [])] else []
      | EmptyString => []
      end
  | Class ranges =>
      match s with
      | String c rest =>
          if in_class icase ranges c
          then [(String c EmptyString, rest, [])] else []
      | EmptyString => []
      end
  | Opt r1 => (rmatch icase r1 s ++ [(EmptyString, s, [])])%list
  | Seq r1 r2 =>
      concat (map (then_ (rmatch icase r2)) (rmatch icase r1 s))
  | Rep n r1 =>
      (fix iter (n : nat) (s : string) : list way :=
         match n with
         | O => [(EmptyString, s, [])]
         | S n' => concat (map (then_ (iter n')) (rmatch icase r1 s))
         end) n s
  | Group r1 =>
      map (fun '(m, rest, caps) => (m, rest, (m :: caps)%list))
          (rmatch icase r1 s)
  end.

(** A way that leaves nothing of the input. *)
Definition whole (w : way) : bool :=
  match snd (fst w) with
  | EmptyString => true
  | String _ _ => false
  end.

(** [/^r$/.exec(s)]: the first way that consumes the whole input; the
    result array holds the whole match and then the captures. *)
Definition exec_anchored (icase : bool) (r : regex) (s : string)
  : option (list string) :=
  match List.find whole (rmatch icase r s) with
  | Some (m, _, caps) => Some (m :: caps)%list
  | None => None
  end.

End Regex.

(* ================================================================== *)
(** ** ColorMath: [hexToRgb], [rgbToHex], [invertColor] *)
(* ================================================================== *)

Import Regex.

(** [[a-f\d]] *)
Definition hex_class : regex :=
  Class [("a"%char, "f"%char); ("0"%char, "9"%char)].

(** [/^#?([a-f\d]{2})([a-f\d]{2})([a-f\d]{2})$/i] *)
Definition hex_pattern : regex :=
  Seq (Opt (Chr "#"))
      (Seq (Group (Rep 2 hex_class))
           (Seq (Group (Rep 2 hex_class)) (Group (Rep 2 hex_class)))).

(** An RGB array [[r, g, b]]. *)
Definition rgb : Type := number * number * number.

Definition hexToRgb (hex : string) : rgb :=
  match exec_anchored true hex_pattern hex with
  | Some result =>
      (JS.parseInt16 (nth 1 result EmptyString),
       JS.parseInt16 (nth 2 result EmptyString),
       JS.parseInt16 (nth 3 result EmptyString))
  | None => (Int 0, Int 0, Int 0)
  end.

Definition rgbToHex (r g b : number) : string :=
  String "#"
    (JS.slice1
       (JS.toString16
          (JS.add (JS.add (JS.add (JS.shl (Int 1) (Int 24))
                                  (JS.shl r (Int 16)))
                          (JS.shl g (Int 8)))
                  b))).

Definition invertColor (hex : string) : string :=
  let '(r, g, b) := hexToRgb hex in
  rgbToHex (JS.sub (Int 255) r) (JS.sub (Int 255) g) (JS.sub (Int 255) b).

(* ================================================================== *)
(** ** Doubles: the arithmetic of the colour distance *)
(* ================================================================== *)

(** JavaScript numbers are IEEE 754 binary64 values, which is what the
    primitive type [float] is.  The colour distance is computed on
    them: subtraction, squaring, addition, square root, comparison. *)
Module Double.

(** The double holding an integer (exact for magnitudes below 2^53). *)
Definition of_Z (z : Z) : float :=
  if z <? 0 then PrimFloat.opp (PrimFloat.of_uint63 (Uint63.of_Z (- z)))
  else PrimFloat.of_uint63 (Uint63.of_Z z).

Definition of_number (x : number) : float :=
  match x with
  | NaN => PrimFloat.nan
  | Int z => of_Z z
  end.

(** The value read from a byte buffer: a byte, or [undefined] out of
    range, which arithmetic turns into [NaN]. *)
Definition of_element (v : option Z) : float :=
  match v with
  | Some z => of_Z z
  | None => PrimFloat.nan
  end.

(** [Math.pow(x, 2)]: the square, as one rounded multiplication.  The
    arguments here are differences of bytes, whose squares are integers
    below 2^16; engines return those exactly, as the multiplication
    does. *)
Definition pow2 (x : float) : float := PrimFloat.mul x x.

End Double.

(** [Math.sqrt(Math.pow(r - c[0], 2) + Math.pow(g - c[1], 2)
               + Math.pow(b - c[2], 2))], with the correctly rounded
    square root of binary64. *)
Definition distance (r g b : float) (c : rgb) : float :=
  let '(c0, c1, c2) := c in
  PrimFloat.sqrt
    (PrimFloat.add
       (PrimFloat.add
          (Double.pow2 (PrimFloat.sub r (Double.of_number c0)))
          (Double.pow2 (PrimFloat.sub g (Double.of_number c1))))
       (Double.pow2 (PrimFloat.sub b (Double.of_number c2)))).

(* ================================================================== *)
(** ** The raster and the pixel sweep of [applyAdvancedStyling] *)
(* ================================================================== *)

(** The parsed PNG: [width], [height] and the flat RGBA byte buffer
    [data], four bytes a pixel, row-major. *)
Record PNGData : Type := mkPNG {
  width : Z;
  height : Z;
  data : list Z
}.

Module Bytes.

(** [buf[i]]: the byte at index [i], [undefined] out of range. *)
Definition get (buf : list Z) (i : Z) : option Z :=
  if i <? 0 then None else buf !! Z.to_nat i.

(** [ToUint8] of the value stored. *)
Definition ToUint8 (v : number) : Z :=
  match v with
  | NaN => 0
  | Int z => z mod 256
  end.

(** [buf[i] = v]: a store out of range is ignored. *)
Definition set (buf : list Z) (i : Z) (v : number) : list Z :=
  if i <? 0 then buf else <[Z.to_nat i := ToUint8 v]> buf.

End Bytes.

(** [(width * y + x) << 2] *)
Definition pixel_index (width y x : Z) : Z :=
  JS.shl32 (JS.wrap32 (width * y + x)) 2.

(** The four stores of one branch of the loop body. *)
Definition store_pixel (buf : list Z) (idx : Z) (r g b a : number)
  : list Z :=
  Bytes.set
    (Bytes.set (Bytes.set (Bytes.set buf idx r) (idx + 1) g) (idx + 2) b)
    (idx + 3) a.

(** [fgDistance < bgDistance] for the pixel whose channels were read as
    [r], [g], [b]. *)
Definition closer_to_foreground (r g b : option Z)
           (foregroundRgb backgroundRgb : rgb) : bool :=
  let fgDistance :=
    distance (Double.of_element r) (Double.of_element g)
             (Double.of_element b) foregroundRgb in
  let bgDistance :=
    distance (Double.of_element r) (Double.of_element g)
             (Double.of_element b) backgroundRgb in
  PrimFloat.ltb fgDistance bgDistance.

(** The body of the inner loop, at column [x] of row [y]. *)
Definition process_pixel (transparent : bool)
           (foregroundRgb backgroundRgb : rgb) (width y : Z)
           (buf : list Z) (x : Z) : list Z :=
  let idx := pixel_index width y x in
  let r := Bytes.get buf idx in
  let g := Bytes.get buf (idx + 1) in
  let b := Bytes.get buf (idx + 2) in
  if closer_to_foreground r g b foregroundRgb backgroundRgb
  then
    let '(f0, f1, f2) := foregroundRgb in
    store_pixel buf idx f0 f1 f2 (Int 255)
  else if transparent
  then store_pixel buf idx (Int 0) (Int 0) (Int 0) (Int 0)
  else
    let '(b0, b1, b2) := backgroundRgb in
    store_pixel buf idx b0 b1 b2 (Int 255).

(** [for (let x = 0; x < width; x++)] *)
Definition process_row (transparent : bool)
           (foregroundRgb backgroundRgb : rgb) (width : Z)
           (buf : list Z) (y : Z) : list Z :=
  fold_left (process_pixel transparent foregroundRgb backgroundRgb width y)
            (seqZ 0 width) buf.

(** [for (let y = 0; y < height; y++)] *)
Definition process_pixels (transparent : bool)
           (foregroundRgb backgroundRgb : rgb) (png : PNGData) : PNGData :=
  mkPNG (width png) (height png)
        (fold_left
           (process_row transparent foregroundRgb backgroundRgb (width png))
           (seqZ 0 (height png)) (data png)).

(* ================================================================== *)
(** ** Options, and the options handed to the encoder *)
(* ================================================================== *)

(** The [options] object of [generateQR]; an absent property is
    [None], and [transparent] absent reads as [false]. *)
Record Options : Type := mkOptions {
  foregroundColor : option string;
  backgroundColor : option string;
  transparent : bool;
  moduleShape : option string;
  errorCorrection : option string;
  margin : option number;
  size : option number;
  version : option number
}.

(** The [color] property of the encoder options. *)
Record QRColor : Type := mkQRColor {
  dark : string;
  light : string
}.

(** [qrOptions]; [qr_version] is [None] while the property is unset. *)
Record QROptions : Type := mkQROptions {
  errorCorrectionLevel : string;
  type : string;
  quality : float;
  qr_margin : number;
  color : QRColor;
  qr_width : number;
  qr_version : option number
}.

(** [v || d] where [v] is a number or [undefined]. *)
Definition or_number (v : option number) (d : number) : number :=
  match v with
  | Some n => if JS.truthy_number n then n else d
  | None => d
  end.

(** [options.foregroundColor || '#000000'] *)
Definition foreground_of (options : Options) : string :=
  JS.or_string (foregroundColor options) "#000000".

(** [backgroundColorToUse] *)
Definition backgroundColorToUse (options : Options) : string :=
  if transparent options
  then invertColor (foreground_of options)
  else JS.or_string (backgroundColor options) "#FFFFFF".

(** [options.version && options.version > 1] *)
Definition version_requested (options : Options) : bool :=
  match version options with
  | Some v => JS.truthy_number v && JS.gt v (Int 1)
  | None => false
  end.

(** The object [generateQR] passes to [QRCode.toBuffer]; [quality] is
    the double nearest to 0.92. *)
Definition qrOptions (options : Options) : QROptions :=
  mkQROptions
    (JS.or_string (errorCorrection options) "M")
    "png"
    0x1.d70a3d70a3d71p-1%float
    (or_number (margin options) (Int 4))
    (mkQRColor (foreground_of options) (backgroundColorToUse options))
    (or_number (size options) (Int 300))
    (if version_requested options then version options else None).

(** [options.transparent ||
     (options.moduleShape && options.moduleShape !== 'square')] *)
Definition wants_styling (options : Options) : bool :=
  transparent options
  || match moduleShape options with
     | Some shape =>
         JS.truthy_string shape && negb (String.eqb shape "square")
     | None => false
     end.

(* ================================================================== *)
(** ** Promises, [try]/[catch] and the console *)
(* ================================================================== *)

Record Error : Type := mkError { message : string }.

(** How a promise settles. *)
Inductive settled (A : Type) : Type :=
| Fulfilled (a : A)
| Rejected (e : Error).
Arguments Fulfilled {A} a.
Arguments Rejected {A} e.

(** How the evaluation of synchronous code completes. *)
Inductive completion (A : Type) : Type :=
| Return (a : A)
| Throw (e : Error).
Arguments Return {A} a.
Arguments Throw {A} e.

(** A line written to the console. *)
Inductive console_line : Type :=
| console_error (text : string)
| console_log (text : string).

(** Code that writes to the console while it runs. *)
Definition logged (A : Type) : Type := list console_line * A.

(** [try { body } catch (error) { handler }]: the handler runs only
    when the body throws. *)
Definition try_catch {A : Type} (body : completion A)
           (handler : Error -> logged (completion A))
  : logged (completion A) :=
  match body with
  | Return a => ([], Return a)
  | Throw e => handler e
  end.

(** [new Promise(executor)]: the executor runs at once and the promise
    settles the way the executor resolves or rejects it; the
    construction itself completes normally. *)
Definition new_Promise {A : Type} (outcome : settled A)
  : completion (settled A) :=
  Return outcome.

(** What an [async] function's promise does when the body returns a
    promise (it follows it) or throws (it rejects). *)
Definition async_result {A : Type} (c : completion (settled A))
  : settled A :=
  match c with
  | Return p => p
  | Throw e => Rejected e
  end.

(** [await p] *)
Definition await {A : Type} (p : settled A) : completion A :=
  match p with
  | Fulfilled a => Return a
  | Rejected e => Throw e
  end.

(* ================================================================== *)
(** ** [applyAdvancedStyling] and [generateQR] *)
(* ================================================================== *)

Section Generator.

(** The collaborators: the byte buffer type, [QRCode.toBuffer], the
    decoder [png.parse] (its callback receives an error or the data)
    and the encoder [PNG.sync.write]. *)
Variable Buffer : Type.
Variable toBuffer : string -> QROptions -> settled Buffer.
Variable png_parse : Buffer -> Error + PNGData.
Variable png_write : PNGData -> Buffer.

(** The callback given to [png.parse], on successfully parsed data:
    the pixel sweep. *)
Definition styled (options : Options) (actualBackgroundColor : string)
           (png : PNGData) : PNGData :=
  let foregroundRgb := hexToRgb (foreground_of options) in
  let backgroundRgb := hexToRgb actualBackgroundColor in
  process_pixels (transparent options) foregroundRgb backgroundRgb png.

Definition applyAdvancedStyling (buffer : Buffer) (options : Options)
           (actualBackgroundColor : string) : logged (settled Buffer) :=
  let '(lines, c) :=
    try_catch
      (new_Promise
         match png_parse buffer with
         | inl error => Rejected error
         | inr png =>
             Fulfilled (png_write (styled options actualBackgroundColor png))
         end)
      (fun error =>
         ([console_error
             ("Transparency processing error: " ++ message error)%string;
           console_log "Falling back to standard QR generation..."],
          Return (Fulfilled buffer)))
  in (lines, async_result c).

(** The [try] block of [generateQR]. *)
Definition generate_body (data : string) (options : Options)
  : logged (completion Buffer) :=
  match await (toBuffer data (qrOptions options)) with
  | Throw e => ([], Throw e)
  | Return buffer =>
      if wants_styling options
      then
        let '(lines, p) :=
          applyAdvancedStyling buffer options (backgroundColorToUse options)
        in (lines, await p)
      else ([], Return buffer)
  end.

Definition generateQR (data : string) (options : Options)
  : logged (settled Buffer) :=
  let '(lines, c) := generate_body data options in
  match c with
  | Return buffer => (lines, Fulfilled buffer)
  | Throw error =>
      (lines,
       Rejected (mkError ("QR generation failed: " ++ message error)%string))
  end.

End Generator.

(* ================================================================== *)
(** * Part II: the notions of the specification *)
(* ================================================================== *)

(* ================================================================== *)
(** ** Colour strings and channels *)
(* ================================================================== *)

(** A hexadecimal digit in either case. *)
Definition is_hex_digit (c : ascii) : bool :=
  let n := JS.code c in
  ((48 <=? n) && (n <=? 57)) || ((97 <=? n) && (n <=? 102))
  || ((65 <=? n) && (n <=? 70)).

(** A lower-case hexadecimal digit, as [toString(16)] writes them. *)
Definition is_lower_hex_digit (c : ascii) : bool :=
  let n := JS.code c in
  ((48 <=? n) && (n <=? 57)) || ((97 <=? n) && (n <=? 102)).

(** Exactly six characters, each satisfying [p]. *)
Definition six_chars (p : ascii -> bool) (s : string) : bool :=
  match s with
  | String c1 (String c2 (String c3 (String c4 (String c5
      (String c6 EmptyString))))) =>
      p c1 && p c2 && p c3 && p c4 && p c5 && p c6
  | _ => false
  end.

(** The string without its leading [#], if it has one. *)
Definition strip_hash (s : string) : string :=
  match s with
  | String "#" rest => rest
  | _ => s
  end.

(** The 6-hex-digit pattern of the specification: six hexadecimal digits
    in either case, after an optional leading [#]. *)
Definition valid_hex_color (s : string) : bool :=
  six_chars is_hex_digit (strip_hash s).

(** The canonical spelling [rgbToHex] produces: [#] and six lower-case
    hexadecimal digits. *)
Definition canonical_hex_color (s : string) : bool :=
  match s with
  | String "#" rest => six_chars is_lower_hex_digit rest
  | _ => false
  end.

(** Two-digit, zero-padded, lower-case rendering of a channel. *)
Definition hex2 (v : Z) : string :=
  String (JS.digit_char (v / 16))
         (String (JS.digit_char (v mod 16)) EmptyString).

(** An 8-bit channel value. *)
Definition channel (v : Z) : Prop := 0 <= v <= 255.

(** An RGB array of three channel values. *)
Definition channels (c : rgb) : Prop :=
  exists r g b, c = (Int r, Int g, Int b)
                /\ channel r /\ channel g /\ channel b.

(* ================================================================== *)
(** ** Pixel classes, distances and recolouring rules *)
(* ================================================================== *)

(** The label of a pixel. *)
Inductive PixelClass : Type :=
| FOREGROUND
| BACKGROUND.

(** The class the loop body assigns to a pixel whose channels are
    [r], [g], [b]: the branch it takes. *)
Definition classify (r g b : Z) (foregroundRgb backgroundRgb : rgb)
  : PixelClass :=
  if closer_to_foreground (Some r) (Some g) (Some b)
       foregroundRgb backgroundRgb
  then FOREGROUND else BACKGROUND.

(** A colour as three integer channels. *)
Definition Color : Type := Z * Z * Z.

(** The RGB array of a colour. *)
Definition rgb_of_color (c : Color) : rgb :=
  let '(c0, c1, c2) := c in (Int c0, Int c1, Int c2).

(** A colour whose three channels are 8-bit values. *)
Definition channels3 (c : Color) : Prop :=
  let '(c0, c1, c2) := c in channel c0 /\ channel c1 /\ channel c2.

(** Square of the Euclidean distance between two colours. *)
Definition squared_distance (p c : Color) : Z :=
  let '(r, g, b) := p in
  let '(c0, c1, c2) := c in
  (r - c0) * (r - c0) + (g - c1) * (g - c1) + (b - c2) * (b - c2).

(** The Euclidean distance in RGB space, a real number. *)
Definition euclidean_distance (p c : Color) : R :=
  sqrt (IZR (squared_distance p c)).

(** A pixel: its R, G, B and A bytes. *)
Definition pixel : Type := Z * Z * Z * Z.

(** The pixel number [k] of a buffer (row-major), when its four bytes
    are there. *)
Definition pixel_at (buf : list Z) (k : Z) : option pixel :=
  match Bytes.get buf (4 * k), Bytes.get buf (4 * k + 1),
        Bytes.get buf (4 * k + 2), Bytes.get buf (4 * k + 3) with
  | Some r, Some g, Some b, Some a => Some (r, g, b, a)
  | _, _, _, _ => None
  end.

(** The pixel the recolouring rules give a pixel of class [c]. *)
Definition painted (transparent : bool) (foregroundRgb backgroundRgb : rgb)
           (c : PixelClass) : pixel :=
  match c with
  | FOREGROUND =>
      let '(f0, f1, f2) := foregroundRgb in
      (Bytes.ToUint8 f0, Bytes.ToUint8 f1, Bytes.ToUint8 f2, 255)
  | BACKGROUND =>
      if transparent then (0, 0, 0, 0)
      else
        let '(b0, b1, b2) := backgroundRgb in
        (Bytes.ToUint8 b0, Bytes.ToUint8 b1, Bytes.ToUint8 b2, 255)
  end.

(** A decoded raster: [width * height] pixels of four bytes, with a
    byte length that 32-bit index arithmetic can address. *)
Definition well_formed (png : PNGData) : Prop :=
  0 <= width png /\ 0 <= height png
  /\ Z.of_nat (length (data png)) = 4 * (width png * height png)
  /\ 4 * (width png * height png) < 2 ^ 31
  /\ Forall (fun v => 0 <= v <= 255) (data png).

(** The foreground colour requested: [options.foregroundColor], and
    black when it is absent or empty. *)
Definition requested_foreground (options : Options) : string :=
  match foregroundColor options with
  | Some (String c s) => String c s
  | _ => "#000000"%string
  end.

(** The background colour requested: [options.backgroundColor], and
    white when it is absent or empty. *)
Definition requested_background (options : Options) : string :=
  match backgroundColor options with
  | Some (String c s) => String c s
  | _ => "#FFFFFF"%string
  end.

(* ================================================================== *)
(** ** Sample inputs *)
(* ================================================================== *)

(** A two-pixel raster: one black pixel, one white pixel. *)
Definition black_white : PNGData :=
  mkPNG 2 1 [0; 0; 0; 255; 255; 255; 255; 255].

(** [-f "#2196F3" -b transparent] *)
Definition blue_on_transparent : Options :=
  mkOptions (Some "#2196F3"%string) (Some "transparent"%string) true None
            None None None None.

(** [-f "#FF5722" -b "#FFF3E0" --module-shape circle] *)
Definition orange_circles : Options :=
  mkOptions (Some "#FF5722"%string) (Some "#FFF3E0"%string) false
            (Some "circle"%string) None None None None.

(** The defaults of the command line, where [--qr-version] is [1]. *)
Definition version_one : Options :=
  mkOptions (Some "#000000"%string) (Some "#FFFFFF"%string) false
            (Some "square"%string) (Some "M"%string) (Some (Int 4))
            (Some (Int 300)) (Some (Int 1)).

(** An encoder that succeeds with some buffer. *)
Definition unstyled_encoder (data : string) (o : QROptions)
  : settled string :=
  Fulfilled "unstyled png"%string.

(** A decoder that reports an error for every buffer. *)
Definition failing_decoder (buffer : string) : Error + PNGData :=
  inl (mkError "Invalid file signature").





(** The raster of [--size 23171]: 23171 by 23171 pixels, a byte buffer
    of [4 * 23171 * 23171] bytes, here every byte 7.  It has more than
    [2 ^ 29] pixels, so not every byte index fits 31 bits. *)
Definition oversized : PNGData :=
  mkPNG 23171 23171 (replicate (Z.to_nat (4 * (23171 * 23171))) 7).

(** The number of its pixel at row 23170, column 0. *)
Definition beyond : Z := 23171 * 23170.

(* ================================================================== *)
(** * Part III: auxiliary definitions of the proofs *)
(* ================================================================== *)

(* ================================================================== *)
(** ** Closed forms of the pattern match and of the parsed channels *)
(* ================================================================== *)

(** The string of two characters. *)
Definition str2 (c1 c2 : ascii) : string :=
  String c1 (String c2 EmptyString).

(** The three capturing groups, in sequence. *)
Definition three_groups : regex :=
  Seq (Group (Rep 2 hex_class))
      (Seq (Group (Rep 2 hex_class)) (Group (Rep 2 hex_class))).

(** The result array of a successful match of the three groups. *)
Definition groups_of (s : string) : option (list string) :=
  match s with
  | String c1 (String c2 (String c3 (String c4 (String c5
      (String c6 EmptyString))))) =>
      Some [str2 c1 c2; str2 c3 c4; str2 c5 c6]
  | _ => None
  end.

(** The result array of [exec] as the pattern reads: the whole input,
    then the three two-digit groups. *)
Definition hex_exec (s : string) : option (list string) :=
  if valid_hex_color s
  then match groups_of (strip_hash s) with
       | Some caps => Some (s :: caps)
       | None => None
       end
  else None.

(** The value of two hexadecimal digits. *)
Definition pair_val (c1 c2 : ascii) : Z :=
  16 * match JS.hex_val c1 with Some d => d | None => 0 end
  + match JS.hex_val c2 with Some d => d | None => 0 end.

(** The fallback of [hexToRgb]. *)
Definition black : rgb := (Int 0, Int 0, Int 0).

(** The channels six hexadecimal digits denote. *)
Definition rgb_of_digits (t : string) : rgb :=
  match t with
  | String c1 (String c2 (String c3 (String c4 (String c5
      (String c6 EmptyString))))) =>
      (Int (pair_val c1 c2), Int (pair_val c3 c4), Int (pair_val c5 c6))
  | _ => black
  end.

(* ================================================================== *)
(** ** Integers in binary64, and the bounded checks run on doubles *)
(* ================================================================== *)

(** The binary64 representation of a positive integer of at most 53
    bits: the mantissa shifted up to 53 bits. *)
Definition canon (c : positive) : spec_float :=
  S754_finite false
    (Pos.shiftl c (Z.to_N (53 - Zpos (digits2_pos c))))
    (Zpos (digits2_pos c) - 53).

(** [f] holds of the [fuel] integers from [i] on. *)
Fixpoint all_from (fuel : nat) (i : Z) (f : Z -> bool) : bool :=
  match fuel with
  | O => true
  | S k => if f i then all_from k (i + 1) f else false
  end.

(** The rounded square root of an integer. *)
Definition sqrt_of (n : Z) : float := PrimFloat.sqrt (Double.of_Z n).

(** The rounded square roots of consecutive integers up to
    [3 * 255 * 255 = 195075] increase strictly. *)
Definition sqrt_step_check : bool :=
  all_from (Z.to_nat 195075) 0
    (fun n => PrimFloat.ltb (sqrt_of n) (sqrt_of (n + 1))).

(** The difference of two bytes is squared exactly. *)
Definition sub_square_check : bool :=
  all_from 256 0
    (fun r =>
       all_from 256 0
         (fun c =>
            PrimFloat.Leibniz.eqb
              (PrimFloat.mul
                 (PrimFloat.sub (Double.of_Z r) (Double.of_Z c))
                 (PrimFloat.sub (Double.of_Z r) (Double.of_Z c)))
              (Double.of_Z ((r - c) * (r - c))))).

(* ================================================================== *)
(** ** What the loop body stores, and the invariant of the sweep *)
(* ================================================================== *)

(** The values the loop body stores for a pixel read as [r], [g], [b]. *)
Definition stored (transparent : bool) (foregroundRgb backgroundRgb : rgb)
           (r g b : option Z) : number * number * number * number :=
  if closer_to_foreground r g b foregroundRgb backgroundRgb
  then let '(f0, f1, f2) := foregroundRgb in (f0, f1, f2, Int 255)
  else if transparent then (Int 0, Int 0, Int 0, Int 0)
  else let '(b0, b1, b2) := backgroundRgb in (b0, b1, b2, Int 255).

(** The pixel the sweep leaves in place of [p]. *)
Definition recolored (transparent : bool) (foregroundRgb backgroundRgb : rgb)
           (p : pixel) : pixel :=
  let '(r, g, b, _) := p in
  let '(v0, v1, v2, v3) :=
    stored transparent foregroundRgb backgroundRgb
           (Some r) (Some g) (Some b) in
  (Bytes.ToUint8 v0, Bytes.ToUint8 v1, Bytes.ToUint8 v2, Bytes.ToUint8 v3).

(** The invariant of the sweep after [n] pixels: the first [n] pixels
    are recoloured, the bytes from [4 * n] on are untouched. *)
Definition swept (transparent : bool) (foregroundRgb backgroundRgb : rgb)
           (buf0 : list Z) (n : Z) (buf : list Z) : Prop :=
  length buf = length buf0
  /\ (forall k, 0 <= k < n ->
        pixel_at buf k
        = option_map (recolored transparent foregroundRgb backgroundRgb)
                     (pixel_at buf0 k))
  /\ (forall i, 4 * n <= i -> Bytes.get buf i = Bytes.get buf0 i).

(* ================================================================== *)
(** * Part III, continued: the input handling around [generateQR] *)
(* ================================================================== *)

(* ================================================================== *)
(** ** String and number operations of the prompts and the command line *)
(* ================================================================== *)

Module Text.

(** [s.startsWith(p)] *)
Definition startsWith (p s : string) : bool := String.prefix p s.

(** [s.replace(pattern, replacement)] with a string pattern: the first
    occurrence is replaced (the replacements used hold no [$]). *)
Fixpoint replace (pattern replacement s : string) : string :=
  if String.prefix pattern s
  then (replacement ++ String.substring (String.length pattern)
                         (String.length s - String.length pattern) s)%string
  else match s with
       | EmptyString => EmptyString
       | String c rest => String c (replace pattern replacement rest)
       end.

(** Lower-casing of a character: [A-Z], and the capital letters of
    Latin-1. *)
Definition lower (c : ascii) : ascii :=
  let n := JS.code c in
  if ((65 <=? n) && (n <=? 90))
     || ((192 <=? n) && (n <=? 222) && negb (n =? 215))
  then ascii_of_N (Z.to_N (n + 32)) else c.

(** [s.toLowerCase()] *)
Fixpoint toLowerCase (s : string) : string :=
  match s with
  | EmptyString => EmptyString
  | String c rest => String (lower c) (toLowerCase rest)
  end.

(** The white space and the line terminators that [trim] removes, as
    UTF-16 code units: U+0009 to U+000D, U+0020, U+00A0, U+1680,
    U+2000 to U+200A, U+2028, U+2029, U+202F, U+205F, U+3000 and
    U+FEFF. *)
Definition is_white_space (u : Z) : bool :=
  ((9 <=? u) && (u <=? 13)) || (u =? 32) || (u =? 160) || (u =? 5760)
  || ((8192 <=? u) && (u <=? 8202)) || (u =? 8232) || (u =? 8233)
  || (u =? 8239) || (u =? 8287) || (u =? 12288) || (u =? 65279).

(** White space removed at the start and at the end of a string given
    as the list of its code units. *)
Fixpoint trim_start (s : list Z) : list Z :=
  match s with
  | u :: rest => if is_white_space u then trim_start rest else s
  | [] => []
  end.

Fixpoint trim_end (s : list Z) : list Z :=
  match s with
  | [] => []
  | u :: rest =>
      match trim_end rest with
      | [] => if is_white_space u then [] else [u]
      | u' :: rest' => u :: u' :: rest'
      end
  end.

(** [s.trim()] *)
Definition trim (s : list Z) : list Z := trim_end (trim_start s).

End Text.

Module Num.

(** Longest prefix of digits of the radix, most significant first. *)
Fixpoint parse_digits (radix : Z) (s : string) (acc : option Z) : option Z :=
  match s with
  | EmptyString => acc
  | String c rest =>
      match JS.digit_val c with
      | Some d =>
          if d <? radix
          then parse_digits radix rest
                 (Some (radix * match acc with Some a => a | None => 0 end
                        + d))
          else acc
      | None => acc
      end
  end.

(** [parseInt(s)] without a radix: leading white space is skipped, then
    an optional sign; after [0x] or [0X] the digits are hexadecimal,
    otherwise decimal; [NaN] when there is no digit.  The result is
    the exact integer, which is what JavaScript returns while it is
    below [2 ^ 53]: up to 15 decimal digits. *)
Definition parseInt (s : string) : number :=
  let s1 := JS.trim_start s in
  let '(sign, s2) :=
    match s1 with
    | String "-" rest => (-1, rest)
    | String "+" rest => (1, rest)
    | _ => (1, s1)
    end in
  let '(radix, s3) :=
    match s2 with
    | String "0" (String "x" rest) => (16, rest)
    | String "0" (String "X" rest) => (16, rest)
    | _ => (10, s2)
    end in
  match parse_digits radix s3 None with
  | Some v => Int (sign * v)
  | None => NaN
  end.

End Num.

(* ================================================================== *)
(** ** The prompts of [interactiveMode] *)
(* ================================================================== *)

(** What a [validate] function returns: [true], or a message. *)
Inductive validation : Type :=
| Accepted
| Refused (text : string).

(** [input => input.trim() !== '' || 'Please enter some data'], on the
    input as the list of its UTF-16 code units. *)
Definition validate_data (input : list Z) : validation :=
  match Text.trim input with
  | [] => Refused "Please enter some data"
  | _ :: _ => Accepted
  end.

(** The [filter] of the foreground colour:
    [input.startsWith('#') ? input : `#${input.replace('#', '')}`] *)
Definition foreground_filter (input : string) : string :=
  if Text.startsWith "#" input then input
  else String "#" (Text.replace "#" "" input).

(** The [filter] of the background colour. *)
Definition background_filter (input : string) : string :=
  if String.eqb (Text.toLowerCase input) "transparent" then "transparent"
  else if Text.startsWith "#" input then input
  else String "#" (Text.replace "#" "" input).

(** What the user typed or chose at the prompts; a number prompt
    delivers a number, [NaN] when the input is not one (numbers with a
    fractional part are outside [number]). *)
Record Typed : Type := mkTyped {
  typed_data : string;
  typed_errorCorrection : string;
  typed_size : number;
  typed_margin : number;
  typed_foregroundColor : string;
  typed_backgroundColor : string;
  typed_moduleShape : string;
  typed_version : number
}.

(** The [answers] object handed to [generateQR]: the colours are stored
    filtered, and [answers.transparent] is set from the background. *)
Definition answers (typed : Typed) : Options :=
  let backgroundColor := background_filter (typed_backgroundColor typed) in
  mkOptions
    (Some (foreground_filter (typed_foregroundColor typed)))
    (Some backgroundColor)
    (String.eqb backgroundColor "transparent")
    (Some (typed_moduleShape typed))
    (Some (typed_errorCorrection typed))
    (Some (typed_margin typed))
    (Some (typed_size typed))
    (Some (typed_version typed)).

(* ================================================================== *)
(** ** The command line *)
(* ================================================================== *)

(** The option values [commander] delivers, all strings (each has a
    default). *)
Record CommandLine : Type := mkCommandLine {
  cli_errorCorrection : string;
  cli_size : string;
  cli_margin : string;
  cli_foregroundColor : string;
  cli_backgroundColor : string;
  cli_moduleShape : string;
  cli_qrVersion : string
}.

(** The object [qrOptions] that the action builds for [generateQR]. *)
Definition cli_options (options : CommandLine) : Options :=
  mkOptions
    (Some (cli_foregroundColor options))
    (Some (cli_backgroundColor options))
    (String.eqb (cli_backgroundColor options) "transparent")
    (Some (cli_moduleShape options))
    (Some (cli_errorCorrection options))
    (Some (Num.parseInt (cli_margin options)))
    (Some (Num.parseInt (cli_size options)))
    (Some (Num.parseInt (cli_qrVersion options))).

(* ================================================================== *)
(** ** [getQRInfo]: the line showing the data *)
(* ================================================================== *)

(** [`${data.substring(0, 50)}${data.length > 50 ? '...' : ''}`] *)
Definition info_data (data : string) : string :=
  (String.substring 0 50 data
   ++ if (50 <? String.length data)%nat then "..." else "")%string.

(* ================================================================== *)
(** ** Notions used by the further properties *)
(* ================================================================== *)

(** The string begins with [#]. *)
Definition hash_first (s : string) : bool :=
  match s with
  | String "#" _ => true
  | _ => false
  end.

(** A decimal digit. *)
Definition is_decimal_digit (c : ascii) : bool :=
  let n := JS.code c in (48 <=? n) && (n <=? 57).

(** The value of a string of decimal digits, continuing from [acc]. *)
Fixpoint decimal_value (digits : string) (acc : Z) : Z :=
  match digits with
  | EmptyString => acc
  | String c rest => decimal_value rest (10 * acc + (JS.code c - 48))
  end.

(** Every character of the string is a decimal digit. *)
Fixpoint all_decimal (s : string) : bool :=
  match s with
  | EmptyString => true
  | String c rest => is_decimal_digit c && all_decimal rest
  end.

(** Two rasters of the same dimensions whose pixels have the same R, G
    and B bytes. *)
Definition same_rgb (png1 png2 : PNGData) : Prop :=
  width png1 = width png2 /\ height png1 = height png2
  /\ forall k r g b a,
      pixel_at (data png1) k = Some (r, g, b, a) ->
      exists a', pixel_at (data png2) k = Some (r, g, b, a').

(** A raster whose pixels are all opaque and of one of two colours. *)
Definition two_tone (F B : Color) (png : PNGData) : Prop :=
  forall k p, pixel_at (data png) k = Some p ->
              p = (F, 255) \/ p = (B, 255).

(** The colour with every channel complemented to 255. *)
Definition complement (c : Color) : Color :=
  let '(r, g, b) := c in (255 - r, 255 - g, 255 - b).

(* ================================================================== *)
(** * Part IV: lemmas *)
(* ================================================================== *)

(* ================================================================== *)
(** ** Examples of the colour conversions *)
(* ================================================================== *)

Example hexToRgb_blue : hexToRgb "#2196F3" = (Int 33, Int 150, Int 243).
Proof. vm_compute. reflexivity. Qed.

Example hexToRgb_named : hexToRgb "red" = (Int 0, Int 0, Int 0).
Proof. vm_compute. reflexivity. Qed.

Example invertColor_blue : invertColor "#2196F3" = "#de690c"%string.
Proof. vm_compute. reflexivity. Qed.

Example invertColor_twice_upper :
  invertColor (invertColor "#2196F3") = "#2196f3"%string.
Proof. vm_compute. reflexivity. Qed.

(* ================================================================== *)
(** ** Characters and digits *)
(* ================================================================== *)

Ltac each_ascii c :=
  destruct c as [[] [] [] [] [] [] [] []]; vm_compute; try reflexivity;
  try discriminate; auto.

(** The class [[a-f\d]] under the [i] flag holds the hexadecimal digits of
    either case. *)
Lemma in_hex_class (c : ascii) :
  in_class true [("a"%char, "f"%char); ("0"%char, "9"%char)] c
  = is_hex_digit c.
Proof. each_ascii c. Qed.

Lemma hash_not_hex (c : ascii) :
  char_eq true "#" c = true -> is_hex_digit c = false.
Proof. each_ascii c. Qed.

(** Only [#] matches the pattern character [#]. *)
Lemma char_eq_hash (c : ascii) :
  char_eq true "#" c = true <-> c = "#"%char.
Proof. split; [|intros ->; reflexivity]. each_ascii c. Qed.

(** A hexadecimal digit has a value below 16. *)
Lemma hex_digit_val (c : ascii) :
  is_hex_digit c = true ->
  exists d, JS.hex_val c = Some d /\ 0 <= d < 16.
Proof.
  destruct c as [[] [] [] [] [] [] [] []]; vm_compute; try discriminate;
    intros _; eexists; (split; [reflexivity|split; congruence]).
Qed.

Lemma hex_digit_not_space (c : ascii) :
  is_hex_digit c = true -> JS.is_space c = false.
Proof. each_ascii c. Qed.

Lemma hex_digit_not_sign (c : ascii) :
  is_hex_digit c = true -> c <> "-"%char /\ c <> "+"%char.
Proof.
  destruct c as [[] [] [] [] [] [] [] []]; vm_compute; try discriminate;
    intros _; split; discriminate.
Qed.

Lemma hex_digit_not_x (c : ascii) :
  is_hex_digit c = true -> c <> "x"%char /\ c <> "X"%char.
Proof.
  destruct c as [[] [] [] [] [] [] [] []]; vm_compute; try discriminate;
    intros _; split; discriminate.
Qed.

Lemma lower_hex_is_hex (c : ascii) :
  is_lower_hex_digit c = true -> is_hex_digit c = true.
Proof. each_ascii c. Qed.

Lemma lower_hex_digit_char (c : ascii) :
  is_lower_hex_digit c = true ->
  exists d, JS.hex_val c = Some d /\ JS.digit_char d = c.
Proof.
  destruct c as [[] [] [] [] [] [] [] []]; vm_compute; try discriminate;
    intros _; eexists; (split; reflexivity).
Qed.

(** The digit written for a value below 16 is a lower-case hexadecimal
    digit with that value. *)
Lemma digit_char_hex (d : Z) :
  0 <= d < 16 ->
  is_lower_hex_digit (JS.digit_char d) = true
  /\ JS.hex_val (JS.digit_char d) = Some d.
Proof.
  intros H.
  assert (d = 0 \/ d = 1 \/ d = 2 \/ d = 3 \/ d = 4 \/ d = 5 \/ d = 6
          \/ d = 7 \/ d = 8 \/ d = 9 \/ d = 10 \/ d = 11 \/ d = 12
          \/ d = 13 \/ d = 14 \/ d = 15) as Hd by lia.
  repeat (destruct Hd as [-> | Hd]; [vm_compute; split; reflexivity|]).
  subst d; vm_compute; split; reflexivity.
Qed.

(* ================================================================== *)
(** ** What the pattern of [hexToRgb] matches *)
(* ================================================================== *)

Lemma rmatch_Seq (i : bool) (a b : regex) (s : string) :
  rmatch i (Seq a b) s = concat (map (then_ (rmatch i b)) (rmatch i a s)).
Proof. reflexivity. Qed.

Lemma rmatch_Opt (i : bool) (a : regex) (s : string) :
  rmatch i (Opt a) s = (rmatch i a s ++ [(EmptyString, s, [])])%list.
Proof. reflexivity. Qed.

Lemma then_unfold (k : string -> list way) (m1 rest1 : string)
      (caps1 : list string) :
  then_ k (m1, rest1, caps1) =
  map (fun '(m2, rest2, caps2) =>
         ((m1 ++ m2)%string, rest2, (caps1 ++ caps2)%list))
      (k rest1).
Proof. reflexivity. Qed.

(** A group of two hexadecimal digits matches in one way, or not at all. *)
Lemma rmatch_two_hex (s : string) :
  rmatch true (Group (Rep 2 hex_class)) s =
  match s with
  | String c1 (String c2 rest) =>
      if is_hex_digit c1 && is_hex_digit c2
      then [(str2 c1 c2, rest, [str2 c1 c2])] else []
  | _ => []
  end.
Proof.
  destruct s as [|c1 [|c2 rest]]; cbn -[in_class]; try reflexivity.
  - rewrite in_hex_class. destruct (is_hex_digit c1); reflexivity.
  - rewrite !in_hex_class.
    destruct (is_hex_digit c1); [|reflexivity].
    cbn -[in_class]. rewrite in_hex_class.
    destruct (is_hex_digit c2); reflexivity.
Qed.

(** On six hexadecimal digits the three groups match in exactly one way,
    consuming all six. *)
Lemma rmatch_three_groups_valid (s : string) :
  six_chars is_hex_digit s = true ->
  exists caps, groups_of s = Some caps
               /\ rmatch true three_groups s = [(s, EmptyString, caps)].
Proof.
  destruct s as [|c1 [|c2 [|c3 [|c4 [|c5 [|c6 [|c7 s]]]]]]];
    try discriminate.
  cbn [six_chars]. intros H.
  repeat (apply andb_prop in H; destruct H as [H ?]).
  eexists; split; [reflexivity|].
  unfold three_groups. rewrite rmatch_Seq, rmatch_two_hex.
  repeat match goal with
         | E : is_hex_digit ?c = true |- context [is_hex_digit ?c] =>
             rewrite E
         end.
  cbn [andb map then_ concat app]. rewrite rmatch_Seq, rmatch_two_hex.
  repeat match goal with
         | E : is_hex_digit ?c = true |- context [is_hex_digit ?c] =>
             rewrite E
         end.
  cbn [andb map then_ concat app]. rewrite rmatch_two_hex.
  repeat match goal with
         | E : is_hex_digit ?c = true |- context [is_hex_digit ?c] =>
             rewrite E
         end.
  reflexivity.
Qed.

(** A way of matching the three groups that leaves nothing comes from six
    hexadecimal digits. *)
Lemma rmatch_three_groups_whole (s : string) (w : way) :
  In w (rmatch true three_groups s) ->
  snd (fst w) = EmptyString ->
  six_chars is_hex_digit s = true.
Proof.
  unfold three_groups. rewrite !rmatch_Seq, rmatch_two_hex.
  destruct s as [|c1 [|c2 s]]; try (cbn; tauto).
  destruct (is_hex_digit c1) eqn:E1; [|cbn; tauto].
  destruct (is_hex_digit c2) eqn:E2; [|cbn; tauto].
  cbn [andb map concat then_ app]. rewrite rmatch_Seq, rmatch_two_hex.
  destruct s as [|c3 [|c4 s]]; try (cbn; tauto).
  destruct (is_hex_digit c3) eqn:E3; [|cbn; tauto].
  destruct (is_hex_digit c4) eqn:E4; [|cbn; tauto].
  cbn [andb map concat then_ app]. rewrite rmatch_two_hex.
  destruct s as [|c5 [|c6 s]]; try (cbn; tauto).
  destruct (is_hex_digit c5) eqn:E5; [|cbn; tauto].
  destruct (is_hex_digit c6) eqn:E6; [|cbn; tauto].
  cbn. intros [<- | []]. cbn. intros ->.
  rewrite E1, E2, E3, E4, E5, E6. reflexivity.
Qed.

(** The three groups do not match at a [#]. *)
Lemma rmatch_three_groups_hash (rest : string) :
  rmatch true three_groups (String "#" rest) = [].
Proof.
  unfold three_groups. rewrite rmatch_Seq, rmatch_two_hex.
  destruct rest; reflexivity.
Qed.

Lemma find_all_false {A : Type} (f : A -> bool) (l : list A) :
  (forall x, In x l -> f x = false) -> List.find f l = None.
Proof.
  induction l as [|a l IH]; intros H; [reflexivity|].
  cbn. rewrite (H a (or_introl eq_refl)). apply IH.
  intros x Hx. apply H. right. exact Hx.
Qed.

Lemma find_whole_three_groups (t : string) :
  List.find whole (rmatch true three_groups t) =
  if six_chars is_hex_digit t
  then match groups_of t with
       | Some caps => Some (t, EmptyString, caps)
       | None => None
       end
  else None.
Proof.
  destruct (six_chars is_hex_digit t) eqn:E.
  - destruct (rmatch_three_groups_valid t E) as (caps & -> & ->).
    reflexivity.
  - apply find_all_false. intros w Hw.
    destruct (whole w) eqn:Ew; [|reflexivity].
    rewrite (rmatch_three_groups_whole t w Hw) in E; [discriminate|].
    unfold whole in Ew. destruct (snd (fst w)); [reflexivity|discriminate].
Qed.

Lemma find_whole_then (m1 rest1 : string) (r : regex) :
  List.find whole (then_ (rmatch true r) (m1, rest1, [])) =
  match List.find whole (rmatch true r rest1) with
  | Some (m2, rest2, caps2) => Some ((m1 ++ m2)%string, rest2, caps2)
  | None => None
  end.
Proof.
  unfold then_. induction (rmatch true r rest1) as [|[[m2 rest2] caps2] l IH].
  - reflexivity.
  - cbn. unfold whole at 1 3. cbn. destruct rest2; [reflexivity|exact IH].
Qed.

(** The result of [exec] for the pattern of [hexToRgb], in closed form. *)
Lemma exec_hex_pattern (s : string) :
  exec_anchored true hex_pattern s = hex_exec s.
Proof.
  unfold exec_anchored, hex_exec, valid_hex_color.
  change hex_pattern with (Seq (Opt (Chr "#")) three_groups).
  rewrite rmatch_Seq, rmatch_Opt.
  destruct s as [|c rest].
  - reflexivity.
  - cbn [rmatch]. destruct (char_eq true "#" c) eqn:Ec.
    + apply char_eq_hash in Ec. subst c.
      cbn [app map concat].
      rewrite (then_unfold (rmatch true three_groups) EmptyString).
      rewrite rmatch_three_groups_hash. cbn [map app]. rewrite app_nil_r.
      rewrite find_whole_then, find_whole_three_groups.
      cbn [strip_hash].
      destruct (six_chars is_hex_digit rest); [|reflexivity].
      destruct (groups_of rest); reflexivity.
    + cbn [app map concat]. rewrite app_nil_r.
      rewrite find_whole_then, find_whole_three_groups.
      assert (strip_hash (String c rest) = String c rest) as ->.
      { unfold strip_hash.
        destruct c as [[] [] [] [] [] [] [] []]; try reflexivity.
        discriminate Ec. }
      destruct (six_chars is_hex_digit (String c rest)); [|reflexivity].
      destruct (groups_of (String c rest)); reflexivity.
Qed.

(* ================================================================== *)
(** ** [parseInt] and [toString(16)] on channel values *)
(* ================================================================== *)

(** [parseInt] of two hexadecimal digits is their value, a channel. *)
Lemma parseInt16_two_digits (c1 c2 : ascii) :
  is_hex_digit c1 = true -> is_hex_digit c2 = true ->
  JS.parseInt16 (str2 c1 c2) = Int (pair_val c1 c2)
  /\ channel (pair_val c1 c2).
Proof.
  intros H1 H2. unfold JS.parseInt16, str2, pair_val, channel.
  cbn [JS.trim_start]. rewrite (hex_digit_not_space c1 H1).
  destruct (hex_digit_not_sign c1 H1) as [Hm Hp].
  destruct (hex_digit_not_x c2 H2) as [Hx HX].
  destruct (hex_digit_val c1 H1) as (d1 & E1 & B1).
  destruct (hex_digit_val c2 H2) as (d2 & E2 & B2).
  assert (match String c1 (String c2 EmptyString) with
          | String "-" rest => (-1, rest)
          | String "+" rest => (1, rest)
          | _ => (1, String c1 (String c2 EmptyString))
          end = (1, String c1 (String c2 EmptyString))) as ->.
  { destruct c1 as [[] [] [] [] [] [] [] []]; try reflexivity;
      contradiction. }
  assert (match String c1 (String c2 EmptyString) with
          | String "0" (String "x" rest) => rest
          | String "0" (String "X" rest) => rest
          | _ => String c1 (String c2 EmptyString)
          end = String c1 (String c2 EmptyString)) as ->.
  { destruct c1 as [[] [] [] [] [] [] [] []]; try reflexivity;
      destruct c2 as [[] [] [] [] [] [] [] []]; try reflexivity;
      contradiction. }
  cbn [JS.parse_digits16]. rewrite E1, E2.
  split; [f_equal; lia | lia].
Qed.

(** One more digit is written for each factor 16. *)
Lemma to_digits16_step (f : nat) (a d : Z) (acc : string) :
  0 <= d < 16 -> 0 < a ->
  JS.to_digits16 (S f) (16 * a + d) acc
  = JS.to_digits16 f a (String (JS.digit_char d) acc).
Proof.
  intros Hd Ha. cbn [JS.to_digits16].
  replace ((16 * a + d) mod 16) with d
    by (rewrite Z.add_comm, Z.mul_comm, Z_mod_plus_full, Z.mod_small; lia).
  replace ((16 * a + d) / 16) with a
    by (rewrite Z.add_comm, Z.mul_comm, Z_div_plus_full, Z.div_small; lia).
  destruct (Z.eqb_spec a 0); [lia|reflexivity].
Qed.

Lemma to_digits16_last (f : nat) (d : Z) (acc : string) :
  0 <= d < 16 ->
  JS.to_digits16 (S f) d acc = String (JS.digit_char d) acc.
Proof.
  intros Hd. cbn [JS.to_digits16].
  rewrite Z.mod_small, Z.div_small by lia. reflexivity.
Qed.

(** The fuel [toString16] starts with is enough: any larger amount
    yields the same digits. *)
Lemma to_digits16_fuel (f1 f2 : nat) (n : Z) (acc : string) :
  0 <= n ->
  (JS.digits_fuel n <= f1)%nat -> (JS.digits_fuel n <= f2)%nat ->
  JS.to_digits16 f1 n acc = JS.to_digits16 f2 n acc.
Proof.
  revert f2 n acc.
  induction f1 as [|f1 IH]; intros f2 n acc Hn H1 H2;
    [unfold JS.digits_fuel in H1; lia|].
  destruct f2 as [|f2]; [unfold JS.digits_fuel in H2; lia|].
  cbn [JS.to_digits16].
  destruct (Z.eqb_spec (n / 16) 0) as [|Hq]; [reflexivity|].
  assert (16 <= n) as Hbig.
  { destruct (Z_lt_le_dec n 16); [|assumption].
    rewrite Z.div_small in Hq; lia. }
  assert (JS.digits_fuel (n / 16) < JS.digits_fuel n)%nat as Hlt.
  { unfold JS.digits_fuel.
    pose proof (Z.log2_nonneg (n / 16)).
    assert (Z.log2 (n / 16) < Z.log2 n); [|lia].
    change 16 with (2 ^ 4). rewrite <- Z.shiftr_div_pow2 by lia.
    rewrite Z.log2_shiftr by lia.
    assert (4 <= Z.log2 n)
      by (change 4 with (Z.log2 16); apply Z.log2_le_mono; lia).
    lia. }
  apply IH; [apply Z.div_pos; lia| lia | lia].
Qed.

(** Shifting a channel left by at most 16 bits multiplies it, without
    wrapping. *)
Lemma shl_channel (v k : Z) :
  channel v -> 0 <= k <= 16 ->
  JS.shl (Int v) (Int k) = Int (v * 2 ^ k).
Proof.
  unfold channel. intros Hv Hk. unfold JS.shl, JS.shl32, JS.ToInt32.
  assert (JS.wrap32 v = v) as ->
      by (unfold JS.wrap32; rewrite Z.mod_small; lia).
  assert (JS.wrap32 k = k) as ->
      by (unfold JS.wrap32; rewrite Z.mod_small; lia).
  assert (Z.land k 31 = k) as ->.
  { change 31 with (Z.ones 5). rewrite Z.land_ones by lia.
    apply Z.mod_small. change (2 ^ 5) with 32. lia. }
  rewrite Z.shiftl_mul_pow2 by lia.
  assert (0 < 2 ^ k <= 2 ^ 16)
    by (split; [apply Z.pow_pos_nonneg; lia
               | apply Z.pow_le_mono_r; lia]).
  f_equal. unfold JS.wrap32. rewrite Z.mod_small; [lia|].
  change (2 ^ 16) with 65536 in *. change (2 ^ 31) with 2147483648.
  change (2 ^ 32) with 4294967296. nia.
Qed.

(** [rgbToHex] writes [#] and each channel as two zero-padded
    lower-case hexadecimal digits. *)
Lemma rgbToHex_channels (r g b : Z) :
  channel r -> channel g -> channel b ->
  rgbToHex (Int r) (Int g) (Int b)
  = String "#" (hex2 r ++ hex2 g ++ hex2 b)%string.
Proof.
  intros Hr Hg Hb. unfold rgbToHex.
  rewrite (shl_channel r 16 Hr), (shl_channel g 8 Hg) by lia.
  change (JS.shl (Int 1) (Int 24)) with (Int 16777216).
  cbn [JS.add]. unfold JS.toString16, channel in *.
  set (n := 16777216 + r * 2 ^ 16 + g * 2 ^ 8 + b).
  change (2 ^ 16) with 65536 in n. change (2 ^ 8) with 256 in n.
  assert (16777216 <= n < 33554432) as Hn by (unfold n; lia).
  destruct (Z.ltb_spec n 0); [lia|].
  assert (JS.digits_fuel n = 25%nat) as ->.
  { unfold JS.digits_fuel.
    rewrite (Z.log2_unique n 24); [reflexivity|lia|].
    change (2 ^ 24) with 16777216. change (2 ^ (24 + 1)) with 33554432.
    lia. }
  pose proof (Z.div_mod r 16 ltac:(lia)).
  pose proof (Z.div_mod g 16 ltac:(lia)).
  pose proof (Z.div_mod b 16 ltac:(lia)).
  pose proof (Z.mod_pos_bound r 16 ltac:(lia)).
  pose proof (Z.mod_pos_bound g 16 ltac:(lia)).
  pose proof (Z.mod_pos_bound b 16 ltac:(lia)).
  assert (0 <= r / 16 < 16)
    by (split; [apply Z.div_pos; lia | apply Z.div_lt_upper_bound; lia]).
  assert (0 <= g / 16 < 16)
    by (split; [apply Z.div_pos; lia | apply Z.div_lt_upper_bound; lia]).
  assert (0 <= b / 16 < 16)
    by (split; [apply Z.div_pos; lia | apply Z.div_lt_upper_bound; lia]).
  replace n with
    (16 * (16 * (16 * (16 * (16 * (16 * 1 + r / 16) + r mod 16) + g / 16)
                 + g mod 16) + b / 16) + b mod 16)
    by (unfold n; lia).
  rewrite !to_digits16_step by lia.
  rewrite to_digits16_last by lia.
  reflexivity.
Qed.

(* ================================================================== *)
(** ** [hexToRgb] in closed form, and the round trips *)
(* ================================================================== *)

(** [hexToRgb] reads the six digits of a valid string and falls back to
    black on any other string. *)
Lemma hexToRgb_closed_form (hex : string) :
  hexToRgb hex =
  if valid_hex_color hex then rgb_of_digits (strip_hash hex) else black.
Proof.
  unfold hexToRgb. rewrite exec_hex_pattern. unfold hex_exec.
  destruct (valid_hex_color hex) eqn:V; [|reflexivity].
  unfold valid_hex_color in V.
  destruct (strip_hash hex) as [|c1 [|c2 [|c3 [|c4 [|c5 [|c6 [|c7 t]]]]]]];
    try discriminate.
  cbn [six_chars] in V.
  repeat (apply andb_prop in V; destruct V as [V ?]).
  cbn [groups_of nth rgb_of_digits].
  repeat match goal with
         | |- context [JS.parseInt16 (str2 ?a ?b)] =>
             rewrite (proj1 (parseInt16_two_digits a b ltac:(assumption)
                               ltac:(assumption)))
         end.
  reflexivity.
Qed.

(** [hexToRgb] always returns three channel values, never [NaN]. *)
Lemma hexToRgb_channels (hex : string) : channels (hexToRgb hex).
Proof.
  rewrite hexToRgb_closed_form. unfold channels.
  destruct (valid_hex_color hex) eqn:V.
  - unfold valid_hex_color in V.
    destruct (strip_hash hex) as [|c1 [|c2 [|c3 [|c4 [|c5 [|c6 [|c7 t]]]]]]];
      try discriminate.
    cbn [six_chars] in V.
    repeat (apply andb_prop in V; destruct V as [V ?]).
    exists (pair_val c1 c2), (pair_val c3 c4), (pair_val c5 c6).
    repeat split; try (eapply parseInt16_two_digits; eassumption).
  - exists 0, 0, 0. unfold channel, black. repeat split; lia.
Qed.

(** The two digits written for a channel are lower-case hexadecimal
    digits, and they denote the channel. *)
Lemma hex2_lower (v : Z) :
  channel v ->
  is_lower_hex_digit (JS.digit_char (v / 16)) = true
  /\ is_lower_hex_digit (JS.digit_char (v mod 16)) = true
  /\ pair_val (JS.digit_char (v / 16)) (JS.digit_char (v mod 16)) = v.
Proof.
  unfold channel. intros Hv.
  assert (0 <= v / 16 < 16) as Hq
    by (split; [apply Z.div_pos; lia | apply Z.div_lt_upper_bound; lia]).
  pose proof (Z.mod_pos_bound v 16 ltac:(lia)) as Hm.
  destruct (digit_char_hex _ Hq) as [L1 V1].
  destruct (digit_char_hex _ Hm) as [L2 V2].
  repeat split; try assumption.
  unfold pair_val. rewrite V1, V2.
  pose proof (Z.div_mod v 16 ltac:(lia)). lia.
Qed.

Lemma rgbToHex_canonical (r g b : Z) :
  channel r -> channel g -> channel b ->
  canonical_hex_color (rgbToHex (Int r) (Int g) (Int b)) = true.
Proof.
  intros Hr Hg Hb. rewrite rgbToHex_channels by assumption.
  destruct (hex2_lower r Hr) as (R1 & R2 & _).
  destruct (hex2_lower g Hg) as (G1 & G2 & _).
  destruct (hex2_lower b Hb) as (B1 & B2 & _).
  unfold hex2. cbn [append canonical_hex_color six_chars].
  rewrite R1, R2, G1, G2, B1, B2. reflexivity.
Qed.

Lemma canonical_is_valid (s : string) :
  canonical_hex_color s = true -> valid_hex_color s = true.
Proof.
  unfold canonical_hex_color, valid_hex_color.
  destruct s as [|c s]; [discriminate|].
  destruct c as [[] [] [] [] [] [] [] []]; try discriminate.
  cbn [strip_hash].
  destruct s as [|c1 [|c2 [|c3 [|c4 [|c5 [|c6 [|c7 t]]]]]]];
    try discriminate.
  cbn [six_chars]. intros V.
  repeat (apply andb_prop in V; destruct V as [V ?]).
  rewrite !lower_hex_is_hex by assumption. reflexivity.
Qed.

(** [hexToRgb] inverts [rgbToHex] on channels. *)
Lemma hexToRgb_rgbToHex (r g b : Z) :
  channel r -> channel g -> channel b ->
  hexToRgb (rgbToHex (Int r) (Int g) (Int b)) = (Int r, Int g, Int b).
Proof.
  intros Hr Hg Hb. rewrite hexToRgb_closed_form.
  rewrite (canonical_is_valid _ (rgbToHex_canonical r g b Hr Hg Hb)).
  rewrite rgbToHex_channels by assumption.
  destruct (hex2_lower r Hr) as (_ & _ & R).
  destruct (hex2_lower g Hg) as (_ & _ & G).
  destruct (hex2_lower b Hb) as (_ & _ & B).
  unfold hex2. cbn [append strip_hash rgb_of_digits].
  rewrite R, G, B. reflexivity.
Qed.

(** [rgbToHex] inverts [hexToRgb] on canonical strings. *)
Lemma rgbToHex_hexToRgb_canonical (c : string) :
  canonical_hex_color c = true ->
  (let '(r, g, b) := hexToRgb c in rgbToHex r g b) = c.
Proof.
  intros Hc. rewrite hexToRgb_closed_form, (canonical_is_valid c Hc).
  unfold canonical_hex_color in Hc.
  destruct c as [|h s]; [discriminate|].
  destruct h as [[] [] [] [] [] [] [] []]; try discriminate.
  cbn [strip_hash].
  destruct s as [|c1 [|c2 [|c3 [|c4 [|c5 [|c6 [|c7 t]]]]]]];
    try discriminate.
  cbn [six_chars] in Hc.
  repeat (apply andb_prop in Hc; destruct Hc as [Hc ?]).
  cbn [rgb_of_digits].
  assert (forall a b, is_lower_hex_digit a = true ->
                      is_lower_hex_digit b = true ->
                      channel (pair_val a b) /\ hex2 (pair_val a b) = str2 a b)
    as Hpair.
  { intros a b Ha Hb.
    split.
    - eapply parseInt16_two_digits; apply lower_hex_is_hex; assumption.
    - destruct (lower_hex_digit_char a Ha) as (da & Ea & Ca).
      destruct (lower_hex_digit_char b Hb) as (db & Eb & Cb).
      destruct (hex_digit_val a (lower_hex_is_hex a Ha)) as (da' & Ea' & Ba).
      destruct (hex_digit_val b (lower_hex_is_hex b Hb)) as (db' & Eb' & Bb).
      rewrite Ea in Ea'. rewrite Eb in Eb'.
      injection Ea' as <-. injection Eb' as <-.
      unfold pair_val, hex2. rewrite Ea, Eb.
      replace ((16 * da + db) / 16) with da
        by (rewrite Z.add_comm, Z.mul_comm, Z_div_plus_full,
             Z.div_small; lia).
      replace ((16 * da + db) mod 16) with db
        by (rewrite Z.add_comm, Z.mul_comm, Z_mod_plus_full,
             Z.mod_small; lia).
      rewrite Ca, Cb. reflexivity. }
  destruct (Hpair c1 c2) as [P1 Q1]; try assumption.
  destruct (Hpair c3 c4) as [P2 Q2]; try assumption.
  destruct (Hpair c5 c6) as [P3 Q3]; try assumption.
  rewrite rgbToHex_channels by assumption.
  rewrite Q1, Q2, Q3. reflexivity.
Qed.

(** [invertColor] complements each channel to 255. *)
Lemma invertColor_channels (c : string) (r g b : Z) :
  hexToRgb c = (Int r, Int g, Int b) ->
  channel r -> channel g -> channel b ->
  invertColor c = rgbToHex (Int (255 - r)) (Int (255 - g)) (Int (255 - b))
  /\ hexToRgb (invertColor c) = (Int (255 - r), Int (255 - g), Int (255 - b)).
Proof.
  intros E Hr Hg Hb. unfold invertColor. rewrite E. cbn [JS.sub].
  split; [reflexivity|].
  apply hexToRgb_rgbToHex; unfold channel in *; lia.
Qed.

(** Inverting twice rewrites a colour string in canonical spelling. *)
Lemma invertColor_twice (c : string) :
  invertColor (invertColor c)
  = (let '(r, g, b) := hexToRgb c in rgbToHex r g b).
Proof.
  destruct (hexToRgb_channels c) as (r & g & b & E & Hr & Hg & Hb).
  destruct (invertColor_channels c r g b E Hr Hg Hb) as [_ E1].
  assert (channel (255 - r) /\ channel (255 - g) /\ channel (255 - b))
    as (Hr' & Hg' & Hb') by (unfold channel in *; lia).
  destruct (invertColor_channels _ _ _ _ E1 Hr' Hg' Hb') as [-> _].
  rewrite E. repeat f_equal; lia.
Qed.

(* ================================================================== *)
(** ** Doubles: small integers are added exactly *)
(* ================================================================== *)

(** The iteration of the floating-point specification is [Pos.iter]. *)
Lemma iter_pos_iter {A : Type} (f : A -> A) (p : positive) (x : A) :
  SpecFloat.iter_pos f p x = Pos.iter f x p.
Proof.
  revert x. induction p as [p IH|p IH|]; intros x; cbn.
  - rewrite !IH. rewrite <- !Pos.iter_swap. reflexivity.
  - rewrite !IH. reflexivity.
  - reflexivity.
Qed.

Lemma digits2_pos_size (p : positive) : digits2_pos p = Pos.size p.
Proof. induction p; cbn; congruence. Qed.

(** A positive number of [d] binary digits lies between [2^(d-1)] and
    [2^d]. *)
Lemma digits2_pos_bounds (p : positive) :
  2 ^ (Zpos (digits2_pos p) - 1) <= Zpos p < 2 ^ Zpos (digits2_pos p).
Proof.
  rewrite digits2_pos_size. split.
  - pose proof (Pos.size_le p) as H.
    apply Pos2Z.pos_le_pos in H. rewrite Pos2Z.inj_pow in H.
    change (Zpos p~0) with (2 * Zpos p) in H.
    replace (Zpos (Pos.size p)) with (Z.succ (Zpos (Pos.size p) - 1)) in H
      by lia.
    rewrite Z.pow_succ_r in H by lia. change (Z.pos 2) with 2 in H. lia.
  - pose proof (Pos.size_gt p) as H.
    apply Pos2Z.pos_lt_pos in H. rewrite Pos2Z.inj_pow in H. exact H.
Qed.

Lemma digits2_pos_unique (p : positive) (d : Z) :
  2 ^ (d - 1) <= Zpos p < 2 ^ d -> Zpos (digits2_pos p) = d.
Proof.
  intros [Hlo Hhi]. pose proof (digits2_pos_bounds p) as [Glo Ghi].
  assert (0 < d).
  { destruct (Z_lt_le_dec 0 d); [assumption|].
    assert (2 ^ d <= 2 ^ 0) by (apply Z.pow_le_mono_r; lia).
    change (2 ^ 0) with 1 in *. lia. }
  destruct (Z_lt_le_dec (Zpos (digits2_pos p)) d).
  - assert (2 ^ Zpos (digits2_pos p) <= 2 ^ (d - 1))
      by (apply Z.pow_le_mono_r; lia). lia.
  - destruct (Z_lt_le_dec d (Zpos (digits2_pos p))); [|lia].
    assert (2 ^ d <= 2 ^ (Zpos (digits2_pos p) - 1))
      by (apply Z.pow_le_mono_r; lia). lia.
Qed.

Lemma digits2_pos_le (c : positive) (k : Z) :
  Zpos c < 2 ^ k -> Zpos (digits2_pos c) <= k.
Proof.
  intros H. pose proof (digits2_pos_bounds c) as [Hlo _].
  destruct (Z_lt_le_dec k (Zpos (digits2_pos c))); [|lia].
  assert (2 ^ k <= 2 ^ (Zpos (digits2_pos c) - 1))
    by (apply Z.pow_le_mono_r; lia || (destruct k; try lia;
        cbn in H; lia)).
  lia.
Qed.

Lemma Zpos_shiftl (c : positive) (n : N) :
  Zpos (Pos.shiftl c n) = Zpos c * 2 ^ Z.of_N n.
Proof.
  destruct n as [|n]; unfold Pos.shiftl, Z.of_N.
  - rewrite Z.pow_0_r, Z.mul_1_r. reflexivity.
  - revert c. induction n as [|n IHn] using Pos.peano_ind; intros c.
    + change (Pos.iter xO c 1) with (xO c).
      rewrite Pos2Z.inj_xO, Z.pow_1_r. lia.
    + rewrite Pos.iter_succ. rewrite Pos2Z.inj_xO, IHn.
      rewrite Pos2Z.inj_succ, Z.pow_succ_r by lia. lia.
Qed.

Lemma digits2_pos_shiftl (c : positive) (n : N) :
  Zpos (digits2_pos (Pos.shiftl c n)) = Zpos (digits2_pos c) + Z.of_N n.
Proof.
  apply digits2_pos_unique. rewrite Zpos_shiftl.
  pose proof (digits2_pos_bounds c) as [Hlo Hhi].
  assert (0 < 2 ^ Z.of_N n) by (apply Z.pow_pos_nonneg; lia).
  replace (Zpos (digits2_pos c) + Z.of_N n - 1)
    with ((Zpos (digits2_pos c) - 1) + Z.of_N n) by lia.
  rewrite !Z.pow_add_r by lia. split; nia.
Qed.

Lemma shr_1_iter_exact (c p : positive) :
  Pos.iter shr_1
    {| shr_m := Zpos (Pos.iter xO c p); shr_r := false; shr_s := false |} p
  = {| shr_m := Zpos c; shr_r := false; shr_s := false |}.
Proof.
  revert c. induction p as [|p IHp] using Pos.peano_ind; intros c.
  - reflexivity.
  - rewrite !Pos.iter_succ. rewrite <- Pos.iter_swap.
    cbn [shr_1 orb]. apply IHp.
Qed.

(** Shifting right a mantissa whose low bits are zero loses nothing. *)
Lemma shr_exact (c : positive) (p : positive) (e : Z) :
  shr {| shr_m := Zpos (Pos.shiftl c (Npos p)); shr_r := false;
         shr_s := false |} e (Zpos p)
  = ({| shr_m := Zpos c; shr_r := false; shr_s := false |}, e + Zpos p).
Proof.
  unfold shr, Pos.shiftl. rewrite iter_pos_iter, shr_1_iter_exact.
  reflexivity.
Qed.

Lemma shr_fexp_exact (c : positive) (k : N) (e : Z) :
  Zpos (digits2_pos c) = 53 -> -1074 <= e ->
  shr_fexp prec emax (Zpos (Pos.shiftl c k)) e loc_Exact
  = ({| shr_m := Zpos c; shr_r := false; shr_s := false |}, e + Z.of_N k).
Proof.
  intros Hd He. unfold shr_fexp. cbn [Zdigits2 shr_record_of_loc].
  rewrite digits2_pos_shiftl, Hd.
  assert (fexp prec emax (53 + Z.of_N k + e) - e = Z.of_N k) as ->.
  { unfold fexp, emin, prec, emax. lia. }
  destruct k as [|p].
  - cbn. rewrite Z.add_0_r. reflexivity.
  - apply shr_exact.
Qed.

(** Rounding a 53-bit mantissa followed by zero bits is exact. *)
Lemma binary_round_aux_exact (c : positive) (k : N) (e : Z) :
  Zpos (digits2_pos c) = 53 -> -1074 <= e -> e + Z.of_N k <= 971 ->
  binary_round_aux prec emax false (Zpos (Pos.shiftl c k)) e loc_Exact
  = S754_finite false c (e + Z.of_N k).
Proof.
  intros Hd He Hk. unfold binary_round_aux.
  rewrite (shr_fexp_exact c k e Hd He).
  cbn [shr_m loc_of_shr_record round_nearest_even].
  change (Zpos c) with (Zpos (Pos.shiftl c 0)).
  rewrite (shr_fexp_exact c 0 _ Hd) by lia.
  cbn [shr_m Z.of_N]. rewrite Z.add_0_r.
  unfold emax, prec. destruct (Z.leb_spec (e + Z.of_N k) (1024 - 53)); [reflexivity|lia].
Qed.

(** Alignment of a mantissa to a smaller exponent, in closed form. *)
Lemma shl_align_spec (m : positive) (e e' : Z) :
  shl_align m e e'
  = (Pos.shiftl m (Z.to_N (e - Z.min e e')), Z.min e e').
Proof.
  unfold shl_align. destruct (e' - e) as [|d|d] eqn:E.
  - replace (Z.min e e') with e by lia. rewrite Z.sub_diag. reflexivity.
  - replace (Z.min e e') with e by lia. rewrite Z.sub_diag. reflexivity.
  - replace (Z.min e e') with e' by lia.
    replace (e - e') with (Zpos d) by lia. reflexivity.
Qed.

(** Normalising an integer [c * 2^j], given with exponent [-j], yields
    the representation of [c]. *)
Lemma binary_normalize_int (M c : positive) (j : Z) :
  0 <= j <= 1000 -> Zpos M = Zpos c * 2 ^ j ->
  Zpos (digits2_pos c) <= 53 ->
  binary_normalize prec emax (Zpos M) (- j) false = canon c.
Proof.
  intros Hj HM Hc. pose proof (Pos2Z.is_pos (digits2_pos c)) as Hpos.
  assert (M = Pos.shiftl c (Z.to_N j)) as ->.
  { apply Pos2Z.inj. rewrite Zpos_shiftl, Z2N.id by lia. exact HM. }
  unfold binary_normalize, binary_round, canon.
  rewrite shl_align_spec. rewrite digits2_pos_shiftl, Z2N.id by lia.
  set (D := Zpos (digits2_pos c)) in *.
  assert (fexp prec emax (D + j + - j) = D - 53) as ->
      by (unfold fexp, emin, prec, emax; lia).
  set (c53 := Pos.shiftl c (Z.to_N (53 - D))).
  assert (Zpos (digits2_pos c53) = 53) as H53
      by (unfold c53; rewrite digits2_pos_shiftl, Z2N.id; fold D; lia).
  destruct (Z_lt_le_dec j (53 - D)) as [Hlt|Hge].
  - (* the mantissa is shifted up to 53 bits *)
    replace (Z.min (- j) (D - 53)) with (D - 53) by lia.
    assert (Pos.shiftl (Pos.shiftl c (Z.to_N j)) (Z.to_N (- j - (D - 53)))
            = Pos.shiftl c53 0) as ->.
    { apply Pos2Z.inj. unfold c53. rewrite !Zpos_shiftl, !Z2N.id by lia.
      cbn [Z.of_N]. rewrite Z.pow_0_r, Z.mul_1_r, <- Z.mul_assoc.
      rewrite <- Z.pow_add_r by lia. do 2 f_equal. lia. }
    rewrite (binary_round_aux_exact c53 0 _ H53) by (cbn [Z.of_N]; lia).
    cbn [Z.of_N]. rewrite Z.add_0_r. reflexivity.
  - (* the mantissa has 53 bits or more, the low ones all zero *)
    replace (Z.min (- j) (D - 53)) with (- j) by lia.
    rewrite Z.sub_diag. change (Z.to_N 0) with 0%N.
    change (Pos.shiftl (Pos.shiftl c (Z.to_N j)) 0)
      with (Pos.shiftl c (Z.to_N j)).
    assert (Pos.shiftl c (Z.to_N j)
            = Pos.shiftl c53 (Z.to_N (j - (53 - D)))) as ->.
    { apply Pos2Z.inj. unfold c53. rewrite !Zpos_shiftl, !Z2N.id by lia.
      rewrite <- Z.mul_assoc, <- Z.pow_add_r by lia. do 2 f_equal. lia. }
    rewrite (binary_round_aux_exact c53 _ _ H53)
      by (rewrite ?Z2N.id; lia).
    rewrite Z2N.id by lia. f_equal. lia.
Qed.

(** The double of a positive integer below 2^53 is its representation. *)
Lemma Prim2SF_of_Z_pos (c : positive) :
  Zpos c < 2 ^ 53 -> Prim2SF (Double.of_Z (Zpos c)) = canon c.
Proof.
  intros Hc. unfold Double.of_Z. cbn [Z.ltb Z.compare].
  rewrite of_uint63_spec, Uint63.of_Z_spec.
  rewrite Z.mod_small
    by (split; [lia|]; eapply Z.lt_trans; [exact Hc|reflexivity]).
  apply (binary_normalize_int c c 0); [lia | lia |].
  apply digits2_pos_le. exact Hc.
Qed.

Lemma Prim2SF_of_Z_zero : Prim2SF (Double.of_Z 0) = S754_zero false.
Proof. reflexivity. Qed.

(** Adding two non-negative integers is exact below 2^53. *)
Lemma of_Z_add (a b : Z) :
  0 <= a -> 0 <= b -> a + b < 2 ^ 53 ->
  PrimFloat.add (Double.of_Z a) (Double.of_Z b) = Double.of_Z (a + b).
Proof.
  intros Ha Hb Hab. apply Prim2SF_inj. rewrite add_spec.
  destruct a as [|a|a]; [|clear Ha|lia].
  { rewrite Prim2SF_of_Z_zero, Z.add_0_l.
    destruct b as [|b|b]; [reflexivity| |lia].
    rewrite Prim2SF_of_Z_pos by lia. reflexivity. }
  destruct b as [|b|b]; [|clear Hb|lia].
  { rewrite Prim2SF_of_Z_zero, Z.add_0_r.
    rewrite Prim2SF_of_Z_pos by lia. reflexivity. }
  change (Zpos a + Zpos b) with (Zpos (a + b)) in *.
  rewrite Pos2Z.inj_add in Hab.
  rewrite (Prim2SF_of_Z_pos (a + b)) by (rewrite Pos2Z.inj_add; lia).
  rewrite !Prim2SF_of_Z_pos by lia.
  unfold canon at 1 2. unfold SF64add, SFadd. cbn [cond_Zopp].
  rewrite !shl_align_spec. cbn [fst].
  pose proof (Pos2Z.is_pos (digits2_pos a)).
  pose proof (Pos2Z.is_pos (digits2_pos b)).
  assert (Zpos (digits2_pos a) <= 53) by (apply digits2_pos_le; lia).
  assert (Zpos (digits2_pos b) <= 53) by (apply digits2_pos_le; lia).
  set (da := Zpos (digits2_pos a)) in *.
  set (db := Zpos (digits2_pos b)) in *.
  set (ez := Z.min (da - 53) (db - 53)).
  replace (Z.min (da - 53) ez) with ez by lia.
  replace (Z.min (db - 53) ez) with ez by lia.
  rewrite <- Pos2Z.inj_add.
  replace ez with (- (- ez)) at 3 by lia.
  apply binary_normalize_int; [lia| |apply digits2_pos_le; lia].
  rewrite Pos2Z.inj_add, !Zpos_shiftl, !Z2N.id by lia.
  rewrite <- !Z.mul_assoc, <- !Z.pow_add_r by lia.
  rewrite Pos2Z.inj_add, Z.mul_add_distr_r. f_equal; do 2 f_equal; lia.
Qed.

(* ================================================================== *)
(** ** Doubles: the order, and the square root on small integers *)
(* ================================================================== *)

(** The strict order of the floating-point specification is irreflexive
    and transitive. *)
Lemma SFltb_irrefl (x : spec_float) : SFltb x x = false.
Proof.
  unfold SFltb, SFcompare.
  destruct x as [s|s| |s m e]; try reflexivity.
  - destruct s; reflexivity.
  - rewrite Z.compare_refl.
    change (Pos.compare_cont Eq m m) with (Pos.compare m m).
    rewrite Pos.compare_refl. destruct s; reflexivity.
Qed.

Lemma SFltb_trans (x y z : spec_float) :
  SFltb x y = true -> SFltb y z = true -> SFltb x z = true.
Proof.
  unfold SFltb, SFcompare.
  destruct x as [sx|sx| |sx mx ex], y as [sy|sy| |sy my ey],
    z as [sz|sz| |sz mz ez];
    try destruct sx; try destruct sy; try destruct sz;
    try discriminate; try reflexivity;
    change (Pos.compare_cont Eq) with Pos.compare;
    repeat match goal with
           | |- context [Z.compare ?a ?b] =>
               destruct (Z.compare_spec a b)
           | |- context [Pos.compare ?a ?b] =>
               destruct (Pos.compare_spec a b)
           end; cbn; try discriminate; try reflexivity; intros; lia.
Qed.

Lemma ltb_irrefl (x : float) : PrimFloat.ltb x x = false.
Proof. rewrite ltb_spec. apply SFltb_irrefl. Qed.

Lemma ltb_trans (x y z : float) :
  PrimFloat.ltb x y = true -> PrimFloat.ltb y z = true ->
  PrimFloat.ltb x z = true.
Proof. rewrite !ltb_spec. apply SFltb_trans. Qed.

(** A bounded check that succeeds holds of every integer in its range. *)
Lemma all_from_spec (f : Z -> bool) (fuel : nat) (i : Z) :
  all_from fuel i f = true ->
  forall k, i <= k < i + Z.of_nat fuel -> f k = true.
Proof.
  revert i. induction fuel as [|fuel IH]; intros i H k Hk; [lia|].
  cbn [all_from] in H. destruct (f i) eqn:E; [|discriminate].
  destruct (Z.eq_dec k i) as [->|]; [assumption|].
  apply (IH (i + 1) H). lia.
Qed.

Lemma sqrt_step_checked : sqrt_step_check = true.
Proof. vm_cast_no_check (eq_refl true). Qed.

Lemma sqrt_of_lt (a b : Z) :
  0 <= a -> a < b -> b <= 195075 ->
  PrimFloat.ltb (sqrt_of a) (sqrt_of b) = true.
Proof.
  intros Ha Hab Hb.
  assert (forall n, 0 <= n < 195075 ->
                    PrimFloat.ltb (sqrt_of n) (sqrt_of (n + 1)) = true)
    as Hstep.
  { intros n Hn.
    apply (all_from_spec _ _ 0 sqrt_step_checked n).
    rewrite Z2Nat.id; lia. }
  replace b with (a + 1 + Z.of_nat (Z.to_nat (b - a - 1))) in * by lia.
  induction (Z.to_nat (b - a - 1)) as [|k IH].
  - rewrite Z.add_0_r. apply Hstep. lia.
  - apply (ltb_trans _ (sqrt_of (a + 1 + Z.of_nat k))).
    + apply IH; lia.
    + replace (a + 1 + Z.of_nat (S k)) with (a + 1 + Z.of_nat k + 1) by lia.
      apply Hstep. lia.
Qed.

(** On the integers up to 195075 the rounded square root reflects the
    order exactly. *)
Lemma sqrt_of_ltb (a b : Z) :
  0 <= a <= 195075 -> 0 <= b <= 195075 ->
  PrimFloat.ltb (sqrt_of a) (sqrt_of b) = (a <? b).
Proof.
  intros Ha Hb. destruct (Z.ltb_spec a b) as [Hlt|Hge].
  - apply sqrt_of_lt; lia.
  - destruct (Z.eq_dec a b) as [->|Hne]; [apply ltb_irrefl|].
    destruct (PrimFloat.ltb (sqrt_of a) (sqrt_of b)) eqn:E; [|reflexivity].
    assert (PrimFloat.ltb (sqrt_of b) (sqrt_of a) = true) as E'
        by (apply sqrt_of_lt; lia).
    rewrite <- (ltb_irrefl (sqrt_of a)). symmetry.
    exact (ltb_trans _ _ _ E E').
Qed.

Lemma sub_square_checked : sub_square_check = true.
Proof. vm_cast_no_check (eq_refl true). Qed.

(** The squared difference of two bytes is computed exactly. *)
Lemma sub_square_exact (r c : Z) :
  0 <= r <= 255 -> 0 <= c <= 255 ->
  PrimFloat.mul (PrimFloat.sub (Double.of_Z r) (Double.of_Z c))
                (PrimFloat.sub (Double.of_Z r) (Double.of_Z c))
  = Double.of_Z ((r - c) * (r - c)).
Proof.
  intros Hr Hc. apply FloatAxioms.Leibniz.eqb_spec.
  pose proof (all_from_spec _ 256 0 sub_square_checked r ltac:(lia)) as H.
  cbv beta in H.
  apply (all_from_spec _ 256 0 H c). lia.
Qed.

(* ================================================================== *)
(** ** The colour distance on doubles and on integers *)
(* ================================================================== *)

(** The comparison of the two rounded distances is the comparison of the
    two squared distances. *)
Lemma closer_to_foreground_squared (p f c : Color) :
  channels3 p -> channels3 f -> channels3 c ->
  (let '(r, g, b) := p in
   closer_to_foreground (Some r) (Some g) (Some b)
     (rgb_of_color f) (rgb_of_color c))
  = (squared_distance p f <? squared_distance p c).
Proof.
  destruct p as [[r g] b], f as [[f0 f1] f2], c as [[c0 c1] c2].
  unfold channels3, channel. intros (Hr & Hg & Hb) (H0 & H1 & H2) (G0 & G1 & G2).
  unfold closer_to_foreground, distance, rgb_of_color, squared_distance,
    Double.of_element, Double.of_number, Double.pow2.
  rewrite !sub_square_exact by lia.
  assert (forall x y, 0 <= x <= 255 -> 0 <= y <= 255 ->
                      0 <= (x - y) * (x - y) <= 65025) as Hsq
      by (intros x y Hx Hy;
          pose proof (Z.square_nonneg (x - y));
          assert (0 <= (255 - (x - y)) * (255 + (x - y)))
            by (apply Z.mul_nonneg_nonneg; lia);
          lia).
  pose proof (Hsq r f0 Hr H0). pose proof (Hsq g f1 Hg H1).
  pose proof (Hsq b f2 Hb H2). pose proof (Hsq r c0 Hr G0).
  pose proof (Hsq g c1 Hg G1). pose proof (Hsq b c2 Hb G2).
  assert (2 ^ 53 = 9007199254740992) as E53 by reflexivity.
  rewrite !of_Z_add by lia.
  apply sqrt_of_ltb; lia.
Qed.

(** The real square root reflects the order of non-negative integers. *)
Lemma sqrt_lt_iff (a b : Z) :
  0 <= a -> 0 <= b -> (sqrt (IZR a) < sqrt (IZR b))%R <-> a < b.
Proof.
  intros Ha Hb. split.
  - intros H. apply lt_IZR. apply sqrt_lt_0_alt. exact H.
  - intros H. apply sqrt_lt_1_alt. split; [apply IZR_le; lia|].
    apply IZR_lt. exact H.
Qed.

Lemma squared_distance_nonneg (p c : Color) : 0 <= squared_distance p c.
Proof.
  destruct p as [[r g] b], c as [[c0 c1] c2]. unfold squared_distance.
  pose proof (Z.square_nonneg (r - c0)).
  pose proof (Z.square_nonneg (g - c1)).
  pose proof (Z.square_nonneg (b - c2)). lia.
Qed.

(* ================================================================== *)
(** ** The byte buffer *)
(* ================================================================== *)

Lemma length_set (buf : list Z) (i : Z) (v : number) :
  length (Bytes.set buf i v) = length buf.
Proof.
  unfold Bytes.set. destruct (i <? 0); [reflexivity|apply length_insert].
Qed.

Lemma get_set_same (buf : list Z) (i : Z) (v : number) :
  0 <= i < Z.of_nat (length buf) ->
  Bytes.get (Bytes.set buf i v) i = Some (Bytes.ToUint8 v).
Proof.
  intros Hi. unfold Bytes.get, Bytes.set.
  destruct (Z.ltb_spec i 0); [lia|].
  apply list_lookup_insert_eq. lia.
Qed.

Lemma get_set_other (buf : list Z) (i j : Z) (v : number) :
  i <> j -> Bytes.get (Bytes.set buf i v) j = Bytes.get buf j.
Proof.
  intros Hij. unfold Bytes.get, Bytes.set.
  destruct (Z.ltb_spec j 0); [reflexivity|].
  destruct (Z.ltb_spec i 0); [reflexivity|].
  apply list_lookup_insert_ne. lia.
Qed.

Lemma get_Some (buf : list Z) (i : Z) :
  0 <= i < Z.of_nat (length buf) -> exists v, Bytes.get buf i = Some v.
Proof.
  intros Hi. unfold Bytes.get. destruct (Z.ltb_spec i 0); [lia|].
  destruct (lookup_lt_is_Some_2 buf (Z.to_nat i)) as [v Hv]; [lia|].
  exists v. exact Hv.
Qed.

Lemma length_store_pixel (buf : list Z) (idx : Z) (r g b a : number) :
  length (store_pixel buf idx r g b a) = length buf.
Proof. unfold store_pixel. rewrite !length_set. reflexivity. Qed.

(** The four stores leave every other byte as it was. *)
Lemma get_store_pixel_other (buf : list Z) (idx j : Z) (r g b a : number) :
  j < idx \/ idx + 3 < j ->
  Bytes.get (store_pixel buf idx r g b a) j = Bytes.get buf j.
Proof.
  intros Hj. unfold store_pixel. rewrite !get_set_other by lia. reflexivity.
Qed.

(** After the four stores the four bytes of the pixel hold the stored
    values, reduced to bytes. *)
Lemma get_store_pixel (buf : list Z) (idx : Z) (r g b a : number) :
  0 <= idx -> idx + 3 < Z.of_nat (length buf) ->
  Bytes.get (store_pixel buf idx r g b a) idx = Some (Bytes.ToUint8 r)
  /\ Bytes.get (store_pixel buf idx r g b a) (idx + 1)
     = Some (Bytes.ToUint8 g)
  /\ Bytes.get (store_pixel buf idx r g b a) (idx + 2)
     = Some (Bytes.ToUint8 b)
  /\ Bytes.get (store_pixel buf idx r g b a) (idx + 3)
     = Some (Bytes.ToUint8 a).
Proof.
  intros H0 H3. unfold store_pixel. repeat split.
  - rewrite !get_set_other by lia. apply get_set_same. lia.
  - rewrite !(get_set_other _ _ (idx + 1)) by lia.
    apply get_set_same. rewrite length_set. lia.
  - rewrite !(get_set_other _ _ (idx + 2)) by lia.
    apply get_set_same. rewrite !length_set. lia.
  - apply get_set_same. rewrite !length_set. lia.
Qed.

Lemma get_range (buf : list Z) (i v : Z) :
  Forall (fun v => 0 <= v <= 255) buf ->
  Bytes.get buf i = Some v -> channel v.
Proof.
  intros Hall. unfold Bytes.get. destruct (i <? 0); [discriminate|].
  intros Hv. exact (Forall_lookup_1 _ _ _ _ Hall Hv).
Qed.

(* ================================================================== *)
(** ** One iteration of the loop body *)
(* ================================================================== *)

(** The index computed with [<< 2] is four times the pixel number, as long
    as it fits 32 bits. *)
Lemma pixel_index_linear (w y x : Z) :
  0 <= w * y + x -> 4 * (w * y + x) < 2 ^ 31 ->
  pixel_index w y x = 4 * (w * y + x).
Proof.
  intros Hn Hlt. unfold pixel_index, JS.shl32.
  change (2 ^ 31) with 2147483648 in Hlt.
  assert (JS.wrap32 (w * y + x) = w * y + x) as ->
      by (unfold JS.wrap32; change (2 ^ 31) with 2147483648;
          change (2 ^ 32) with 4294967296; rewrite Z.mod_small; lia).
  change (Z.land 2 31) with 2. rewrite Z.shiftl_mul_pow2 by lia.
  change (2 ^ 2) with 4. unfold JS.wrap32.
  change (2 ^ 31) with 2147483648. change (2 ^ 32) with 4294967296.
  rewrite Z.mod_small; lia.
Qed.

(** The loop body stores, at the index of the pixel, the values chosen
    from the three channels it read there. *)
Lemma process_pixel_stored (t : bool) (F B : rgb) (w y x : Z)
      (buf : list Z) :
  process_pixel t F B w y buf x =
  let idx := pixel_index w y x in
  let '(v0, v1, v2, v3) :=
    stored t F B (Bytes.get buf idx) (Bytes.get buf (idx + 1))
           (Bytes.get buf (idx + 2)) in
  store_pixel buf idx v0 v1 v2 v3.
Proof.
  unfold process_pixel, stored. cbv zeta.
  destruct (closer_to_foreground _ _ _ F B).
  - destruct F as [[f0 f1] f2]. reflexivity.
  - destruct t; [reflexivity|]. destruct B as [[b0 b1] b2]. reflexivity.
Qed.

Lemma pixel_at_Some (buf : list Z) (k : Z) :
  0 <= k -> 4 * (k + 1) <= Z.of_nat (length buf) ->
  exists r g b a,
    Bytes.get buf (4 * k) = Some r /\ Bytes.get buf (4 * k + 1) = Some g
    /\ Bytes.get buf (4 * k + 2) = Some b
    /\ Bytes.get buf (4 * k + 3) = Some a
    /\ pixel_at buf k = Some (r, g, b, a).
Proof.
  intros Hk Hlen.
  destruct (get_Some buf (4 * k)) as [r Hr]; [lia|].
  destruct (get_Some buf (4 * k + 1)) as [g Hg]; [lia|].
  destruct (get_Some buf (4 * k + 2)) as [b Hb]; [lia|].
  destruct (get_Some buf (4 * k + 3)) as [a Ha]; [lia|].
  exists r, g, b, a. unfold pixel_at. rewrite Hr, Hg, Hb, Ha. auto.
Qed.

Lemma pixel_at_range (buf : list Z) (k r g b a : Z) :
  Forall (fun v => 0 <= v <= 255) buf ->
  pixel_at buf k = Some (r, g, b, a) -> channels3 (r, g, b).
Proof.
  intros Hall. unfold pixel_at.
  destruct (Bytes.get buf (4 * k)) as [r'|] eqn:Er; [|discriminate].
  destruct (Bytes.get buf (4 * k + 1)) as [g'|] eqn:Eg; [|discriminate].
  destruct (Bytes.get buf (4 * k + 2)) as [b'|] eqn:Eb; [|discriminate].
  destruct (Bytes.get buf (4 * k + 3)) as [a'|] eqn:Ea; [|discriminate].
  intros [= <- <- <- <-]. unfold channels3.
  repeat split; eapply get_range; eassumption.
Qed.

(** One iteration of the loop body extends the invariant by one pixel. *)
Lemma swept_step (t : bool) (F B : rgb) (buf0 buf : list Z) (w y x : Z) :
  0 <= w * y + x ->
  4 * (w * y + x + 1) <= Z.of_nat (length buf0) ->
  Z.of_nat (length buf0) < 2 ^ 31 ->
  swept t F B buf0 (w * y + x) buf ->
  swept t F B buf0 (w * y + x + 1) (process_pixel t F B w y buf x).
Proof.
  intros Hn Hlen H31 (Hl & Hdone & Hrest).
  set (n := w * y + x) in *.
  rewrite process_pixel_stored. cbv zeta.
  rewrite (pixel_index_linear w y x) by (fold n; lia). fold n.
  rewrite !Hrest by lia.
  destruct (pixel_at_Some buf0 n Hn Hlen) as (r & g & b & a & Er & Eg & Eb & Ea & Ep).
  rewrite Er, Eg, Eb.
  destruct (stored t F B (Some r) (Some g) (Some b))
    as [[[v0 v1] v2] v3] eqn:Es.
  destruct (get_store_pixel buf (4 * n) v0 v1 v2 v3) as (S0 & S1 & S2 & S3);
    [lia | rewrite Hl; lia |].
  split; [rewrite length_store_pixel; exact Hl|]. split.
  - intros k Hk. destruct (Z.eq_dec k n) as [->|Hne].
    + unfold pixel_at at 1. rewrite S0, S1, S2, S3, Ep.
      cbn [option_map]. unfold recolored. rewrite Es. reflexivity.
    + rewrite <- Hdone by lia. unfold pixel_at.
      rewrite !get_store_pixel_other by lia. reflexivity.
  - intros i Hi. rewrite get_store_pixel_other by lia. apply Hrest. lia.
Qed.

(* ================================================================== *)
(** ** The two loops *)
(* ================================================================== *)

(** The invariant rule of a counting [for] loop. *)
Lemma fold_left_seqZ_invariant {A : Type} (P : Z -> A -> Prop)
      (f : A -> Z -> A) (len : Z) (a : A) :
  0 <= len -> P 0 a ->
  (forall i s, 0 <= i < len -> P i s -> P (i + 1) (f s i)) ->
  P len (fold_left f (seqZ 0 len) a).
Proof.
  intros Hlen H0 Hstep.
  assert (forall n, 0 <= n -> n <= len ->
                    P n (fold_left f (seqZ 0 n) a)) as H.
  { intros n Hn. pattern n. apply natlike_ind; [| |exact Hn].
    - intros _. exact H0.
    - intros m Hm IH Hle.
      replace (Z.succ m) with (m + 1) by lia.
      rewrite seqZ_app by lia. rewrite fold_left_app.
      change (seqZ (0 + m) 1) with [0 + m]. cbn [fold_left].
      rewrite Z.add_0_l. apply Hstep; [lia|]. apply IH. lia. }
  apply H; lia.
Qed.

(** The inner loop extends the invariant by one row. *)
Lemma swept_row (t : bool) (F B : rgb) (buf0 buf : list Z) (w h y : Z) :
  0 <= w -> 0 <= y < h ->
  Z.of_nat (length buf0) = 4 * (w * h) ->
  4 * (w * h) < 2 ^ 31 ->
  swept t F B buf0 (w * y) buf ->
  swept t F B buf0 (w * (y + 1)) (process_row t F B w buf y).
Proof.
  intros Hw Hy Hlen H31 Hs. unfold process_row.
  replace (w * (y + 1)) with (w * y + w) by lia.
  apply (fold_left_seqZ_invariant
           (fun i s => swept t F B buf0 (w * y + i) s)); [exact Hw| |].
  - rewrite Z.add_0_r. exact Hs.
  - intros x s Hx Hsx. rewrite Z.add_assoc.
    assert (w * y + x + 1 <= w * h) by nia.
    apply swept_step; [nia | lia | lia | exact Hsx].
Qed.

(** The two loops establish the invariant for the whole raster. *)
Lemma swept_all (t : bool) (F B : rgb) (png : PNGData) :
  well_formed png ->
  swept t F B (data png) (width png * height png)
        (data (process_pixels t F B png)).
Proof.
  intros (Hw & Hh & Hlen & H31 & _). unfold process_pixels. cbn [data].
  apply (fold_left_seqZ_invariant
           (fun y s => swept t F B (data png) (width png * y) s));
    [exact Hh| |].
  - rewrite Z.mul_0_r. repeat split; intros; lia.
  - intros y s Hy Hs. apply (swept_row t F B _ _ _ (height png)); auto.
Qed.

(** Every pixel of the output raster is the recoloured input pixel. *)
Lemma process_pixels_pixel (t : bool) (F B : rgb) (png : PNGData) (k : Z) :
  well_formed png -> 0 <= k < width png * height png ->
  exists p, pixel_at (data png) k = Some p
            /\ pixel_at (data (process_pixels t F B png)) k
               = Some (recolored t F B p).
Proof.
  intros Hwf Hk. destruct (swept_all t F B png Hwf) as (_ & Hdone & _).
  destruct Hwf as (Hw & Hh & Hlen & H31 & _).
  destruct (pixel_at_Some (data png) k) as (r & g & b & a & _ & _ & _ & _ & Ep);
    [lia | lia |].
  exists (r, g, b, a). split; [exact Ep|].
  rewrite (Hdone k Hk), Ep. reflexivity.
Qed.

(* ================================================================== *)
(** ** The classifier and the painted pixel *)
(* ================================================================== *)

(** The pixel left by the loop body is the pixel painted for the class of
    the input pixel. *)
Lemma recolored_painted (t : bool) (F B : rgb) (r g b a : Z) :
  recolored t F B (r, g, b, a) = painted t F B (classify r g b F B).
Proof.
  unfold recolored, stored, painted, classify.
  destruct (closer_to_foreground _ _ _ F B).
  - destruct F as [[f0 f1] f2]. reflexivity.
  - destruct t; [reflexivity|]. destruct B as [[b0 b1] b2]. reflexivity.
Qed.

Lemma hexToRgb_color (hex : string) :
  exists c : Color, hexToRgb hex = rgb_of_color c /\ channels3 c.
Proof.
  destruct (hexToRgb_channels hex) as (r & g & b & E & Hr & Hg & Hb).
  exists (r, g, b). split; [exact E|]. unfold channels3. auto.
Qed.

(** On channel values the class is decided by the squared distances. *)
Lemma classify_nearest (p F B : Color) :
  channels3 p -> channels3 F -> channels3 B ->
  (let '(r, g, b) := p in
   classify r g b (rgb_of_color F) (rgb_of_color B)) =
  if squared_distance p F <? squared_distance p B
  then FOREGROUND else BACKGROUND.
Proof.
  intros Hp HF HB.
  pose proof (closer_to_foreground_squared p F B Hp HF HB) as H.
  destruct p as [[r g] b]. unfold classify. rewrite H. reflexivity.
Qed.

(** With equal reference colours every pixel is BACKGROUND. *)
Lemma classify_same (r g b : Z) (F : rgb) : classify r g b F F = BACKGROUND.
Proof.
  unfold classify, closer_to_foreground. rewrite ltb_irrefl. reflexivity.
Qed.

Lemma ToUint8_channel (v : Z) : channel v -> Bytes.ToUint8 (Int v) = v.
Proof. unfold channel, Bytes.ToUint8. intros H. apply Z.mod_small. lia. Qed.

Lemma well_formed_black_white : well_formed black_white.
Proof.
  unfold well_formed, black_white. cbn [width height data length].
  repeat split; try lia; try reflexivity.
  repeat constructor; lia.
Qed.

(** What the sweep of [applyAdvancedStyling] leaves at pixel [k]: the
    pixel painted according to the class of the input pixel. *)
Lemma styled_pixel (options : Options) (actualBackgroundColor : string)
      (png : PNGData) (k : Z) :
  well_formed png -> 0 <= k < width png * height png ->
  exists r g b a,
    pixel_at (data png) k = Some (r, g, b, a)
    /\ channels3 (r, g, b)
    /\ pixel_at (data (styled options actualBackgroundColor png)) k
       = Some (painted (transparent options)
                 (hexToRgb (foreground_of options))
                 (hexToRgb actualBackgroundColor)
                 (classify r g b (hexToRgb (foreground_of options))
                           (hexToRgb actualBackgroundColor))).
Proof.
  intros Hwf Hk. unfold styled.
  destruct (process_pixels_pixel (transparent options)
              (hexToRgb (foreground_of options))
              (hexToRgb actualBackgroundColor) png k Hwf Hk)
    as ([[[r g] b] a] & Ep & Eout).
  exists r, g, b, a. split; [exact Ep|]. split.
  - destruct Hwf as (_ & _ & _ & _ & Hall).
    exact (pixel_at_range _ _ _ _ _ _ Hall Ep).
  - rewrite Eout, recolored_painted. reflexivity.
Qed.

(** The midpoint between two reference colours, and its neighbours. *)
Example classify_tie :
  classify 0 0 127 (Int 0, Int 0, Int 0) (Int 0, Int 0, Int 254)
  = BACKGROUND.
Proof. vm_compute. reflexivity. Qed.

Example classify_below_midpoint :
  classify 0 0 127 (Int 0, Int 0, Int 0) (Int 0, Int 0, Int 255)
  = FOREGROUND.
Proof. vm_compute. reflexivity. Qed.

Example classify_above_midpoint :
  classify 0 0 128 (Int 0, Int 0, Int 0) (Int 0, Int 0, Int 255)
  = BACKGROUND.
Proof. vm_compute. reflexivity. Qed.

(** Blue modules on the inverted (orange) background: the black pixel
    is nearer the orange and becomes transparent, the white one is
    nearer the blue and becomes a module. *)
Example styled_black_white :
  data (styled blue_on_transparent (backgroundColorToUse blue_on_transparent)
               black_white)
  = [0; 0; 0; 0; 33; 150; 243; 255].
Proof. vm_compute. reflexivity. Qed.

(* ================================================================== *)
(** ** The styling pass inside [generateQR] *)
(* ================================================================== *)

(** The [catch] clause around the construction of a promise never
    runs: the construction completes normally however the promise
    settles. *)
Lemma try_catch_new_Promise {A : Type} (p : settled A)
      (handler : Error -> logged (completion (settled A))) :
  try_catch (new_Promise p) handler = ([], Return p).
Proof. reflexivity. Qed.

(** When the decoder reports an error, the promise built in
    [applyAdvancedStyling] is rejected; the [catch] clause around its
    construction does not run, nothing is logged and the buffer is not
    returned. *)
Lemma applyAdvancedStyling_decode_failure
      (Buffer : Type) (png_parse : Buffer -> Error + PNGData)
      (png_write : PNGData -> Buffer) (buffer : Buffer)
      (options : Options) (actualBackgroundColor : string) (e : Error) :
  png_parse buffer = inl e ->
  applyAdvancedStyling Buffer png_parse png_write buffer options
                       actualBackgroundColor
  = ([], Rejected e).
Proof.
  intros H. unfold applyAdvancedStyling. rewrite H. reflexivity.
Qed.


(** [generateQR] wraps the rejection into its own error: the request
    fails although the encoder produced a buffer. *)
Lemma generateQR_decode_failure
      (Buffer : Type) (toBuffer : string -> QROptions -> settled Buffer)
      (png_parse : Buffer -> Error + PNGData)
      (png_write : PNGData -> Buffer) (data : string) (options : Options)
      (buffer : Buffer) (e : Error) :
  toBuffer data (qrOptions options) = Fulfilled buffer ->
  wants_styling options = true ->
  png_parse buffer = inl e ->
  generateQR Buffer toBuffer png_parse png_write data options
  = ([], Rejected (mkError ("QR generation failed: " ++ message e)%string)).
Proof.
  intros Henc Hstyle Hparse. unfold generateQR, generate_body.
  rewrite Henc. cbn [await]. rewrite Hstyle.
  rewrite (applyAdvancedStyling_decode_failure _ _ _ _ _ _ e Hparse).
  reflexivity.
Qed.



(** [generateQR] calls the encoder once, with [qrOptions options]. *)
Lemma generateQR_encoder_call
      (Buffer : Type) (toBuffer toBuffer' : string -> QROptions -> settled Buffer)
      (png_parse : Buffer -> Error + PNGData)
      (png_write : PNGData -> Buffer) (data : string) (options : Options) :
  toBuffer data (qrOptions options) = toBuffer' data (qrOptions options) ->
  generateQR Buffer toBuffer png_parse png_write data options
  = generateQR Buffer toBuffer' png_parse png_write data options.
Proof.
  intros H. unfold generateQR, generate_body. rewrite H. reflexivity.
Qed.

(* ================================================================== *)
(** ** The requested colours *)
(* ================================================================== *)

Lemma foreground_of_requested (options : Options) :
  foreground_of options = requested_foreground options.
Proof.
  unfold foreground_of, requested_foreground, JS.or_string.
  destruct (foregroundColor options) as [[|c s]|]; reflexivity.
Qed.

Lemma background_of_requested (options : Options) :
  transparent options = false ->
  backgroundColorToUse options = requested_background options.
Proof.
  intros Ht. unfold backgroundColorToUse, requested_background, JS.or_string.
  rewrite Ht. destruct (backgroundColor options) as [[|c s]|]; reflexivity.
Qed.


(* ================================================================== *)
(** ** The bytes that the 32-bit index cannot reach *)
(* ================================================================== *)

(** A property of the buffer kept by the loop body is kept by the two
    loops. *)
Lemma process_pixels_keeps (P : list Z -> Prop) (t : bool) (F B : rgb)
      (png : PNGData) :
  (forall w y x buf, P buf -> P (process_pixel t F B w y buf x)) ->
  P (data png) -> P (data (process_pixels t F B png)).
Proof.
  intros Hstep H0. unfold process_pixels. cbn [data].
  generalize (seqZ 0 (height png)). intros ys. revert H0.
  generalize (data png). induction ys as [|y ys IH]; intros buf Hbuf;
    [exact Hbuf|].
  cbn [fold_left]. apply IH. unfold process_row.
  generalize (seqZ 0 (width png)). intros xs. revert Hbuf.
  generalize buf. induction xs as [|x xs IHx]; intros buf' Hbuf';
    [exact Hbuf'|].
  cbn [fold_left]. apply IHx. apply Hstep. exact Hbuf'.
Qed.

Lemma wrap32_range (z : Z) : - 2 ^ 31 <= JS.wrap32 z < 2 ^ 31.
Proof.
  unfold JS.wrap32. change (2 ^ 31) with 2147483648.
  change (2 ^ 32) with 4294967296.
  pose proof (Z.mod_pos_bound (z + 2147483648) 4294967296 ltac:(lia)). lia.
Qed.

(** Whatever the row and the column, [(width * y + x) << 2] is a signed
    32-bit integer. *)
Lemma pixel_index_range (w y x : Z) : - 2 ^ 31 <= pixel_index w y x < 2 ^ 31.
Proof. unfold pixel_index, JS.shl32. apply wrap32_range. Qed.

(** No iteration stores a byte at an index from [2 ^ 31 + 3] on. *)
Lemma process_pixel_far (t : bool) (F B : rgb) (w y x : Z) (buf : list Z)
      (j : Z) :
  2 ^ 31 + 3 <= j ->
  Bytes.get (process_pixel t F B w y buf x) j = Bytes.get buf j.
Proof.
  intros Hj. rewrite process_pixel_stored. cbv zeta.
  destruct (stored t F B _ _ _) as [[[v0 v1] v2] v3].
  apply get_store_pixel_other.
  pose proof (pixel_index_range w y x). lia.
Qed.

(** So the sweep leaves every pixel whose bytes lie there as it was,
    for every raster, mode and pair of colours. *)
Lemma pixel_at_far (options : Options) (actualBackgroundColor : string)
      (png : PNGData) (k : Z) :
  2 ^ 31 + 3 <= 4 * k ->
  pixel_at (data (styled options actualBackgroundColor png)) k
  = pixel_at (data png) k.
Proof.
  intros Hk. unfold styled.
  assert (forall j, 2 ^ 31 + 3 <= j ->
            Bytes.get (data (process_pixels (transparent options)
                               (hexToRgb (foreground_of options))
                               (hexToRgb actualBackgroundColor) png)) j
            = Bytes.get (data png) j) as H.
  { intros j Hj.
    apply (process_pixels_keeps
             (fun buf => Bytes.get buf j = Bytes.get (data png) j));
      [|reflexivity].
    intros w y x buf E. rewrite process_pixel_far by exact Hj. exact E. }
  unfold pixel_at. rewrite !H by lia. reflexivity.
Qed.

Lemma get_replicate (n : nat) (v i : Z) :
  0 <= i < Z.of_nat n -> Bytes.get (replicate n v) i = Some v.
Proof.
  intros Hi. unfold Bytes.get. destruct (Z.ltb_spec i 0); [lia|].
  apply lookup_replicate_2. lia.
Qed.

Lemma pixel_at_replicate (n : nat) (v k : Z) :
  0 <= k -> 4 * k + 3 < Z.of_nat n ->
  pixel_at (replicate n v) k = Some (v, v, v, v).
Proof.
  intros H0 H3. unfold pixel_at. rewrite !get_replicate by lia. reflexivity.
Qed.


Lemma oversized_pixel :
  pixel_at (data oversized) beyond = Some (7, 7, 7, 7).
Proof.
  unfold oversized. cbn [data].
  apply pixel_at_replicate; rewrite ?Z2Nat.id; unfold beyond; lia.
Qed.

Lemma oversized_kept (options : Options) (actualBackgroundColor : string) :
  pixel_at (data (styled options actualBackgroundColor oversized)) beyond
  = Some (7, 7, 7, 7).
Proof.
  rewrite pixel_at_far; [exact oversized_pixel|].
  unfold beyond. lia.
Qed.

(* ================================================================== *)
(** * Part V: the properties of the specification *)
(* ================================================================== *)

(* ================================================================== *)
(** ** ColorMath *)
(* ================================================================== *)




(** C10: for channel values [r], [g], [b] in [0, 255], [rgbToHex]
    yields [#] followed by exactly six hexadecimal digits, two
    zero-padded digits a channel, and [hexToRgb] reads [(r, g, b)]
    back from it. *)
Theorem rgbToHex_format_and_roundtrip (r g b : Z) :
  channel r -> channel g -> channel b ->
  rgbToHex (Int r) (Int g) (Int b)
  = String "#" (hex2 r ++ hex2 g ++ hex2 b)%string
  /\ String.length (rgbToHex (Int r) (Int g) (Int b)) = 7%nat
  /\ canonical_hex_color (rgbToHex (Int r) (Int g) (Int b)) = true
  /\ hexToRgb (rgbToHex (Int r) (Int g) (Int b)) = (Int r, Int g, Int b).
Proof.
  intros Hr Hg Hb. repeat split.
  - apply rgbToHex_channels; assumption.
  - rewrite rgbToHex_channels by assumption. reflexivity.
  - apply rgbToHex_canonical; assumption.
  - apply hexToRgb_rgbToHex; assumption.
Qed.

(** The blue [(33, 150, 243)]. *)
Lemma rgbToHex_format_and_roundtrip_witness :
  channel 33 /\ channel 150 /\ channel 243
  /\ rgbToHex (Int 33) (Int 150) (Int 243) = "#2196f3"%string
  /\ hexToRgb (rgbToHex (Int 33) (Int 150) (Int 243))
     = (Int 33, Int 150, Int 243).
Proof.
  assert (channel 33 /\ channel 150 /\ channel 243) as (H1 & H2 & H3)
      by (unfold channel; lia).
  destruct (rgbToHex_format_and_roundtrip 33 150 243 H1 H2 H3)
    as (E & _ & _ & R).
  exact (conj H1 (conj H2 (conj H3 (conj E R)))).
Defined.

(** C5, as the specification states it, fails: the default background
    [#FFFFFF] is a valid colour string, and inverting it twice gives
    [#ffffff], a different string. *)
Lemma invertColor_twice_not_identity :
  valid_hex_color "#FFFFFF" = true
  /\ invertColor (invertColor "#FFFFFF") <> "#FFFFFF"%string.
Proof. split; [reflexivity|]. vm_compute. discriminate. Qed.

(** C5, amended: for every valid 6-digit hex colour string [c],
    [invertColor (invertColor c)] is the canonical spelling of [c]
    ([rgbToHex] of its channels: [#] and six lower-case digits), it
    denotes the same colour as [c], and it is [c] itself when [c] is
    already written that way. *)
Theorem invertColor_involutive_on_colors (c : string) :
  valid_hex_color c = true ->
  invertColor (invertColor c)
  = (let '(r, g, b) := hexToRgb c in rgbToHex r g b)
  /\ canonical_hex_color (invertColor (invertColor c)) = true
  /\ hexToRgb (invertColor (invertColor c)) = hexToRgb c
  /\ (canonical_hex_color c = true -> invertColor (invertColor c) = c).
Proof.
  intros _. rewrite invertColor_twice.
  destruct (hexToRgb_channels c) as (r & g & b & E & Hr & Hg & Hb).
  repeat split.
  - rewrite E. apply rgbToHex_canonical; assumption.
  - rewrite E. apply hexToRgb_rgbToHex; assumption.
  - intros Hc. apply rgbToHex_hexToRgb_canonical. exact Hc.
Qed.

(** The blue [#2196F3] comes back in lower case. *)
Lemma invertColor_involutive_on_colors_witness :
  valid_hex_color "#2196F3" = true
  /\ invertColor (invertColor "#2196F3") = "#2196f3"%string
  /\ hexToRgb (invertColor (invertColor "#2196F3")) = hexToRgb "#2196F3".
Proof.
  split; [reflexivity|].
  destruct (invertColor_involutive_on_colors "#2196F3" eq_refl)
    as (E & _ & R & _).
  split; [exact E | exact R].
Defined.

(* ================================================================== *)
(** ** StyleResolver and the encoder options *)
(* ================================================================== *)

(** C4: the background colour handed to the encoder is
    [invertColor] of the foreground colour (black when none is given)
    when [transparent] is requested; otherwise it is the caller's
    [backgroundColor], and white [#FFFFFF] when none is supplied (an
    empty string counts as none). *)
Theorem effective_background_color (options : Options) :
  light (color (qrOptions options)) =
  if transparent options
  then invertColor
         match foregroundColor options with
         | Some (String c s) => String c s
         | _ => "#000000"%string
         end
  else match backgroundColor options with
       | Some (String c s) => String c s
       | _ => "#FFFFFF"%string
       end.
Proof.
  unfold qrOptions, backgroundColorToUse, foreground_of, JS.or_string.
  cbn [color light].
  destruct (transparent options).
  - destruct (foregroundColor options) as [[|c s]|]; reflexivity.
  - destruct (backgroundColor options) as [[|c s]|]; reflexivity.
Qed.

(** C9, as the specification states it, fails at version 1, the
    default of the command line: no version is passed. *)
Lemma version_one_not_passed :
  version version_one = Some (Int 1)
  /\ qr_version (qrOptions version_one) <> Some (Int 1).
Proof. split; [reflexivity|]. vm_compute. discriminate. Qed.

(** C9, amended: a requested version [v] with [2 <= v <= 40] is passed
    to the encoder as it is; with version 0, 1 or absent no version is
    passed. *)
Theorem version_passed_to_encoder (options : Options) :
  (forall v, 2 <= v <= 40 -> version options = Some (Int v) ->
             qr_version (qrOptions options) = Some (Int v))
  /\ (version options = Some (Int 0) \/ version options = Some (Int 1)
      \/ version options = None ->
      qr_version (qrOptions options) = None).
Proof.
  unfold qrOptions, version_requested. cbn [qr_version]. split.
  - intros v Hv ->. cbn [JS.truthy_number JS.gt].
    destruct (Z.eqb_spec v 0); [lia|].
    destruct (Z.ltb_spec 1 v); [reflexivity|lia].
  - intros [-> | [-> | ->]]; reflexivity.
Qed.

(** Version 7 is passed, version 1 is not. *)
Lemma version_passed_to_encoder_witness :
  qr_version
    (qrOptions (mkOptions None None false None None None None
                          (Some (Int 7))))
  = Some (Int 7)
  /\ qr_version (qrOptions version_one) = None.
Proof.
  split.
  - apply (proj1 (version_passed_to_encoder
                    (mkOptions None None false None None None None
                               (Some (Int 7)))) 7); [lia|reflexivity].
  - apply (proj2 (version_passed_to_encoder version_one)).
    right. left. reflexivity.
Defined.

(* ================================================================== *)
(** ** PixelClassifier and Recolorer *)
(* ================================================================== *)


(** C2 does not hold of the code on that raster: in transparent mode,
    with the blue [#2196F3] requested, the pixel at row 23170 and
    column 0 is after the sweep neither [(0, 0, 0, 0)] nor
    [(33, 150, 243, 255)]: it is [(7, 7, 7, 7)] as before. *)
Theorem transparent_mode_skips_pixels_past_int32 :
  transparent blue_on_transparent = true
  /\ hexToRgb (requested_foreground blue_on_transparent)
     = (Int 33, Int 150, Int 243)
  /\ pixel_at (data oversized) beyond = Some (7, 7, 7, 7)
  /\ pixel_at (data (styled blue_on_transparent
                            (backgroundColorToUse blue_on_transparent)
                            oversized)) beyond
     = Some (7, 7, 7, 7).
Proof.
  split; [reflexivity|]. split; [vm_compute; reflexivity|].
  split; [exact oversized_pixel | apply oversized_kept].
Qed.



(* ================================================================== *)
(** ** Failure of the styling pass *)
(* ================================================================== *)

(** C3 does not hold of the code: with an encoder that succeeds and a
    decoder that fails, a transparent-mode request is rejected with
    [QR generation failed: ...]; the unstyled buffer is not returned
    and no warning is logged. *)
Theorem styling_failure_is_fatal :
  generateQR string unstyled_encoder failing_decoder (fun _ => EmptyString)
             "https://example.com" blue_on_transparent
  = ([], Rejected (mkError "QR generation failed: Invalid file signature")).
Proof.
  apply (generateQR_decode_failure string unstyled_encoder failing_decoder
           _ _ _ "unstyled png"%string (mkError "Invalid file signature"));
    reflexivity.
Qed.

(* ================================================================== *)
(** * Part VI: further properties of the code *)
(* ================================================================== *)

(* ================================================================== *)
(** ** ColorMath on arbitrary strings *)
(* ================================================================== *)

Lemma lower_hex_digit (c : ascii) :
  is_hex_digit (Text.lower c) = is_hex_digit c
  /\ JS.hex_val (Text.lower c) = (if is_hex_digit c then JS.hex_val c
                                  else JS.hex_val (Text.lower c))
  /\ hash_first (String (Text.lower c) EmptyString)
     = hash_first (String c EmptyString).
Proof.
  destruct c as [[] [] [] [] [] [] [] []]; vm_compute; auto.
Qed.

Lemma six_chars_lower (s : string) :
  six_chars is_hex_digit (Text.toLowerCase s) = six_chars is_hex_digit s.
Proof.
  destruct s as [|c1 [|c2 [|c3 [|c4 [|c5 [|c6 [|c7 t]]]]]]];
    try reflexivity.
  cbn [Text.toLowerCase six_chars].
  rewrite !(proj1 (lower_hex_digit _)). reflexivity.
Qed.

Lemma strip_hash_lower (s : string) :
  strip_hash (Text.toLowerCase s) = Text.toLowerCase (strip_hash s).
Proof.
  destruct s as [|c t]; [reflexivity|]. cbn [Text.toLowerCase].
  destruct c as [[] [] [] [] [] [] [] []]; reflexivity.
Qed.

Lemma pair_val_lower (c1 c2 : ascii) :
  is_hex_digit c1 = true -> is_hex_digit c2 = true ->
  pair_val (Text.lower c1) (Text.lower c2) = pair_val c1 c2.
Proof.
  intros H1 H2. unfold pair_val.
  destruct (lower_hex_digit c1) as (_ & E1 & _).
  destruct (lower_hex_digit c2) as (_ & E2 & _).
  rewrite H1 in E1. rewrite H2 in E2. rewrite E1, E2. reflexivity.
Qed.

(** X1: for every string whatsoever, [hexToRgb] returns three integers
    between 0 and 255: never [NaN], never a value outside a byte. *)
Theorem hexToRgb_always_bytes (hex : string) :
  exists r g b : Z,
    hexToRgb hex = (Int r, Int g, Int b)
    /\ 0 <= r <= 255 /\ 0 <= g <= 255 /\ 0 <= b <= 255.
Proof. exact (hexToRgb_channels hex). Qed.

(** X2: [hexToRgb] does not see the case of the letters: a string and
    its lower-case form are read as the same colour. *)
Theorem hexToRgb_ignores_case (hex : string) :
  hexToRgb (Text.toLowerCase hex) = hexToRgb hex.
Proof.
  rewrite !hexToRgb_closed_form. unfold valid_hex_color.
  rewrite strip_hash_lower, six_chars_lower.
  destruct (six_chars is_hex_digit (strip_hash hex)) eqn:V; [|reflexivity].
  destruct (strip_hash hex) as [|c1 [|c2 [|c3 [|c4 [|c5 [|c6 [|c7 t]]]]]]];
    try discriminate.
  cbn [six_chars] in V.
  repeat (apply andb_prop in V; destruct V as [V ?]).
  cbn [Text.toLowerCase rgb_of_digits].
  rewrite !pair_val_lower by assumption. reflexivity.
Qed.

(** X3: a leading [#] makes no difference: for a string that does not
    itself begin with [#], [hexToRgb] reads the string and the string
    with [#] in front as the same colour. *)
Theorem hexToRgb_ignores_leading_hash (hex : string) :
  hash_first hex = false ->
  hexToRgb (String "#" hex) = hexToRgb hex.
Proof.
  intros H. rewrite !hexToRgb_closed_form. unfold valid_hex_color.
  assert (strip_hash hex = hex) as ->.
  { destruct hex as [|c t]; [reflexivity|].
    destruct c as [[] [] [] [] [] [] [] []]; try reflexivity.
    discriminate H. }
  reflexivity.
Qed.

Lemma hexToRgb_ignores_leading_hash_witness :
  hash_first "FF5722" = false
  /\ hexToRgb "#FF5722" = hexToRgb "FF5722".
Proof.
  split; [reflexivity|].
  exact (hexToRgb_ignores_leading_hash "FF5722" eq_refl).
Defined.

(** X4: whatever string it is given, [invertColor] returns a canonical
    colour string, [#] followed by six lower-case hexadecimal digits;
    on a string that is not a valid colour it returns white,
    [#ffffff]. *)
Theorem invertColor_always_canonical (hex : string) :
  canonical_hex_color (invertColor hex) = true
  /\ (valid_hex_color hex = false -> invertColor hex = "#ffffff"%string).
Proof.
  split.
  - destruct (hexToRgb_channels hex) as (r & g & b & E & Hr & Hg & Hb).
    destruct (invertColor_channels hex r g b E Hr Hg Hb) as [-> _].
    apply rgbToHex_canonical; unfold channel in *; lia.
  - intros V. unfold invertColor.
    rewrite hexToRgb_closed_form, V. reflexivity.
Qed.

Lemma invertColor_always_canonical_witness :
  valid_hex_color "red" = false
  /\ canonical_hex_color (invertColor "red") = true
  /\ invertColor "red" = "#ffffff"%string.
Proof.
  split; [reflexivity|].
  destruct (invertColor_always_canonical "red") as [C W].
  split; [exact C | exact (W eq_refl)].
Defined.

(** X5: [invertColor] complements every channel to 255, so the colour
    it returns is never the colour it was given. *)
Theorem invertColor_complements (hex : string) :
  exists c : Color,
    channels3 c
    /\ hexToRgb hex = rgb_of_color c
    /\ hexToRgb (invertColor hex) = rgb_of_color (complement c)
    /\ hexToRgb (invertColor hex) <> hexToRgb hex.
Proof.
  destruct (hexToRgb_channels hex) as (r & g & b & E & Hr & Hg & Hb).
  destruct (invertColor_channels hex r g b E Hr Hg Hb) as [_ E'].
  exists (r, g, b).
  split; [unfold channels3; auto|]. split; [exact E|].
  split; [exact E'|].
  rewrite E', E. intros [= H _ _]. lia.
Qed.

(* ================================================================== *)
(** ** The options handed to the encoder *)
(* ================================================================== *)

Lemma or_number_truthy (v : option number) (d : Z) :
  d <> 0 ->
  exists n, or_number v (Int d) = Int n /\ n <> 0.
Proof.
  intros Hd. unfold or_number.
  destruct v as [[|z]|]; cbn [JS.truthy_number]; eauto.
  destruct (Z.eqb_spec z 0); cbn [negb]; eauto.
Qed.

(** X6: the margin and the width handed to the encoder are never 0 and
    never [NaN]: a requested margin or size that is 0, [NaN] or absent
    is replaced by the default (4, 300), and any other integer is
    passed as it is. *)
Theorem margin_and_width_never_zero (options : Options) :
  (exists m, qr_margin (qrOptions options) = Int m /\ m <> 0)
  /\ (exists w, qr_width (qrOptions options) = Int w /\ w <> 0)
  /\ (margin options = Some (Int 0) \/ margin options = Some NaN
      \/ margin options = None ->
      qr_margin (qrOptions options) = Int 4)
  /\ (size options = Some (Int 0) \/ size options = Some NaN
      \/ size options = None ->
      qr_width (qrOptions options) = Int 300)
  /\ (forall m, m <> 0 -> margin options = Some (Int m) ->
                qr_margin (qrOptions options) = Int m)
  /\ (forall w, w <> 0 -> size options = Some (Int w) ->
                qr_width (qrOptions options) = Int w).
Proof.
  unfold qrOptions. cbn [qr_margin qr_width].
  split; [apply or_number_truthy; lia|].
  split; [apply or_number_truthy; lia|].
  split; [intros [-> | [-> | ->]]; reflexivity|].
  split; [intros [-> | [-> | ->]]; reflexivity|].
  split; intros n Hn ->; unfold or_number; cbn [JS.truthy_number];
    destruct (Z.eqb_spec n 0); try lia; reflexivity.
Qed.

Lemma margin_and_width_never_zero_witness :
  qr_margin
    (qrOptions (mkOptions None None false None None (Some (Int 0))
                          (Some (Int 512)) None)) = Int 4
  /\ qr_width
       (qrOptions (mkOptions None None false None None (Some (Int 0))
                             (Some (Int 512)) None)) = Int 512.
Proof.
  destruct (margin_and_width_never_zero
              (mkOptions None None false None None (Some (Int 0))
                         (Some (Int 512)) None))
    as (_ & _ & M & _ & _ & W).
  split; [exact (M (or_introl eq_refl))|].
  apply (W 512); [lia|reflexivity].
Defined.

(** X8: in transparent mode the two colours handed to the encoder are
    complementary: the light colour is a canonical colour string whose
    channels are 255 minus those of the dark colour, so the two never
    denote the same colour. *)
Theorem transparent_reference_colors (options : Options) :
  transparent options = true ->
  canonical_hex_color (light (color (qrOptions options))) = true
  /\ exists c : Color,
      channels3 c
      /\ hexToRgb (dark (color (qrOptions options))) = rgb_of_color c
      /\ hexToRgb (light (color (qrOptions options)))
         = rgb_of_color (complement c)
      /\ c <> complement c.
Proof.
  intros Ht. unfold qrOptions, backgroundColorToUse. cbn [color light dark].
  rewrite Ht. split.
  - destruct (hexToRgb_channels (foreground_of options))
      as (r & g & b & E & Hr & Hg & Hb).
    destruct (invertColor_channels _ r g b E Hr Hg Hb) as [-> _].
    apply rgbToHex_canonical; unfold channel in *; lia.
  - destruct (hexToRgb_channels (foreground_of options))
      as (r & g & b & E & Hr & Hg & Hb).
    destruct (invertColor_channels _ r g b E Hr Hg Hb) as [_ E'].
    exists (r, g, b).
    split; [unfold channels3; auto|]. split; [exact E|].
    split; [exact E'|]. intros [= H _ _]. lia.
Qed.

Lemma transparent_reference_colors_witness :
  transparent blue_on_transparent = true
  /\ light (color (qrOptions blue_on_transparent)) = "#de690c"%string
  /\ canonical_hex_color (light (color (qrOptions blue_on_transparent)))
     = true.
Proof.
  split; [reflexivity|].
  destruct (transparent_reference_colors blue_on_transparent eq_refl)
    as [C _].
  split; [vm_compute; reflexivity | exact C].
Defined.

(* ================================================================== *)
(** ** The control flow of [generateQR] *)
(* ================================================================== *)

Section Flow.

Variable Buffer : Type.
Variable toBuffer : string -> QROptions -> settled Buffer.
Variable png_parse : Buffer -> Error + PNGData.
Variable png_write : PNGData -> Buffer.

Lemma applyAdvancedStyling_silent (buffer : Buffer) (options : Options)
      (actualBackgroundColor : string) :
  fst (applyAdvancedStyling Buffer png_parse png_write buffer options
                            actualBackgroundColor) = [].
Proof. unfold applyAdvancedStyling. destruct (png_parse buffer); reflexivity. Qed.

(** The outcome of [generateQR], case by case. *)
Lemma generateQR_cases (data : string) (options : Options) :
  generateQR Buffer toBuffer png_parse png_write data options =
  match toBuffer data (qrOptions options) with
  | Rejected e =>
      ([], Rejected (mkError ("QR generation failed: " ++ message e)%string))
  | Fulfilled buffer =>
      if wants_styling options
      then match png_parse buffer with
           | inl e =>
               ([], Rejected
                      (mkError ("QR generation failed: " ++ message e)%string))
           | inr png =>
               ([], Fulfilled
                      (png_write
                         (styled options (backgroundColorToUse options) png)))
           end
      else ([], Fulfilled buffer)
  end.
Proof.
  unfold generateQR, generate_body, applyAdvancedStyling.
  destruct (toBuffer data (qrOptions options)) as [buffer|e];
    cbn [await]; [|reflexivity].
  destruct (wants_styling options); [|reflexivity].
  destruct (png_parse buffer); reflexivity.
Qed.

End Flow.

(** X9: [generateQR] and [applyAdvancedStyling] never write to the
    console, whatever the encoder and the decoder do: the two lines of
    the fallback in [applyAdvancedStyling] are never printed. *)
Theorem generateQR_never_logs
        (Buffer : Type) (toBuffer : string -> QROptions -> settled Buffer)
        (png_parse : Buffer -> Error + PNGData)
        (png_write : PNGData -> Buffer) (data : string) (options : Options)
        (buffer : Buffer) (actualBackgroundColor : string) :
  fst (generateQR Buffer toBuffer png_parse png_write data options) = []
  /\ fst (applyAdvancedStyling Buffer png_parse png_write buffer options
                               actualBackgroundColor) = [].
Proof.
  split; [|apply applyAdvancedStyling_silent].
  rewrite generateQR_cases.
  destruct (toBuffer data (qrOptions options)) as [b|e]; [|reflexivity].
  destruct (wants_styling options); [|reflexivity].
  destruct (png_parse b); reflexivity.
Qed.

(** X10: every failure of [generateQR] carries the message of the
    underlying error behind the prefix [QR generation failed: ], and
    the underlying error is the encoder's or the decoder's. *)
Theorem generateQR_rejection_wrapped
        (Buffer : Type) (toBuffer : string -> QROptions -> settled Buffer)
        (png_parse : Buffer -> Error + PNGData)
        (png_write : PNGData -> Buffer) (data : string) (options : Options)
        (e : Error) :
  snd (generateQR Buffer toBuffer png_parse png_write data options)
  = Rejected e ->
  exists cause : Error,
    message e = ("QR generation failed: " ++ message cause)%string
    /\ (toBuffer data (qrOptions options) = Rejected cause
        \/ exists buffer,
            toBuffer data (qrOptions options) = Fulfilled buffer
            /\ wants_styling options = true
            /\ png_parse buffer = inl cause).
Proof.
  rewrite generateQR_cases.
  destruct (toBuffer data (qrOptions options)) as [b|e0] eqn:Henc.
  - destruct (wants_styling options) eqn:Hs; [|discriminate].
    destruct (png_parse b) as [e0|png] eqn:Hp; [|discriminate].
    cbn [snd]. intros [= <-]. exists e0. split; [reflexivity|].
    right. exists b. auto.
  - cbn [snd]. intros [= <-]. exists e0. split; [reflexivity|]. left.
    reflexivity.
Qed.

Lemma generateQR_rejection_wrapped_witness :
  exists cause : Error,
    message (mkError "QR generation failed: Invalid file signature")
    = ("QR generation failed: " ++ message cause)%string
    /\ (unstyled_encoder "https://example.com"
                         (qrOptions blue_on_transparent) = Rejected cause
        \/ exists buffer,
            unstyled_encoder "https://example.com"
                             (qrOptions blue_on_transparent)
            = Fulfilled buffer
            /\ wants_styling blue_on_transparent = true
            /\ failing_decoder buffer = inl cause).
Proof.
  apply (generateQR_rejection_wrapped string unstyled_encoder failing_decoder
           (fun _ => EmptyString) "https://example.com" blue_on_transparent
           (mkError "QR generation failed: Invalid file signature")).
  reflexivity.
Defined.

(** X11: when the encoder fails, [generateQR] fails with the wrapped
    message without consulting the PNG codec: the outcome is the same
    for every decoder and re-encoder. *)
Theorem generateQR_encoder_failure
        (Buffer : Type) (toBuffer : string -> QROptions -> settled Buffer)
        (png_parse png_parse' : Buffer -> Error + PNGData)
        (png_write png_write' : PNGData -> Buffer)
        (data : string) (options : Options) (e : Error) :
  toBuffer data (qrOptions options) = Rejected e ->
  generateQR Buffer toBuffer png_parse png_write data options
  = ([], Rejected (mkError ("QR generation failed: " ++ message e)%string))
  /\ generateQR Buffer toBuffer png_parse png_write data options
     = generateQR Buffer toBuffer png_parse' png_write' data options.
Proof.
  intros H. rewrite !generateQR_cases, H. split; reflexivity.
Qed.

Lemma generateQR_encoder_failure_witness :
  generateQR string
    (fun _ _ => Rejected (mkError "The amount of data is too big"))
    failing_decoder (fun _ => EmptyString) "payload" blue_on_transparent
  = ([], Rejected
           (mkError "QR generation failed: The amount of data is too big")).
Proof.
  apply (generateQR_encoder_failure string
           (fun _ _ => Rejected (mkError "The amount of data is too big"))
           failing_decoder failing_decoder (fun _ => EmptyString)
           (fun _ => EmptyString) "payload" blue_on_transparent
           (mkError "The amount of data is too big")).
  reflexivity.
Defined.

(** X12: without transparency, and with the module shape absent, empty
    or [square], [generateQR] returns the buffer of the encoder as it
    is; the PNG codec is not involved, so a decoder that would fail
    does no harm. *)
Theorem generateQR_square_opaque_untouched
        (Buffer : Type) (toBuffer : string -> QROptions -> settled Buffer)
        (png_parse : Buffer -> Error + PNGData)
        (png_write : PNGData -> Buffer) (data : string) (options : Options)
        (buffer : Buffer) :
  transparent options = false ->
  moduleShape options = None \/ moduleShape options = Some EmptyString
  \/ moduleShape options = Some "square"%string ->
  toBuffer data (qrOptions options) = Fulfilled buffer ->
  generateQR Buffer toBuffer png_parse png_write data options
  = ([], Fulfilled buffer).
Proof.
  intros Ht Hshape Henc. rewrite generateQR_cases, Henc.
  unfold wants_styling. rewrite Ht.
  destruct Hshape as [-> | [-> | ->]]; reflexivity.
Qed.

Lemma generateQR_square_opaque_untouched_witness :
  generateQR string unstyled_encoder failing_decoder (fun _ => EmptyString)
             "https://example.com" version_one
  = ([], Fulfilled "unstyled png"%string).
Proof.
  apply (generateQR_square_opaque_untouched string unstyled_encoder
           failing_decoder (fun _ => EmptyString) "https://example.com"
           version_one "unstyled png"%string);
    [reflexivity | right; right; reflexivity | reflexivity].
Defined.

(* ================================================================== *)
(** ** Invariants of the pixel sweep *)
(* ================================================================== *)

Lemma length_process_pixel (t : bool) (F B : rgb) (w y x : Z)
      (buf : list Z) :
  length (process_pixel t F B w y buf x) = length buf.
Proof.
  rewrite process_pixel_stored. cbv zeta.
  destruct (stored t F B _ _ _) as [[[v0 v1] v2] v3].
  apply length_store_pixel.
Qed.

Lemma ToUint8_byte (v : number) : 0 <= Bytes.ToUint8 v <= 255.
Proof.
  destruct v as [|z]; cbn [Bytes.ToUint8]; [lia|].
  pose proof (Z.mod_pos_bound z 256 ltac:(lia)). lia.
Qed.

Lemma set_bytes (buf : list Z) (i : Z) (v : number) :
  Forall (fun v => 0 <= v <= 255) buf ->
  Forall (fun v => 0 <= v <= 255) (Bytes.set buf i v).
Proof.
  intros H. unfold Bytes.set. destruct (i <? 0); [exact H|].
  apply Forall_insert; [exact H|apply ToUint8_byte].
Qed.

Lemma process_pixel_bytes (t : bool) (F B : rgb) (w y x : Z)
      (buf : list Z) :
  Forall (fun v => 0 <= v <= 255) buf ->
  Forall (fun v => 0 <= v <= 255) (process_pixel t F B w y buf x).
Proof.
  intros H. rewrite process_pixel_stored. cbv zeta.
  destruct (stored t F B _ _ _) as [[[v0 v1] v2] v3].
  unfold store_pixel. repeat apply set_bytes. exact H.
Qed.

Lemma styled_dimensions (options : Options)
      (actualBackgroundColor : string) (png : PNGData) :
  width (styled options actualBackgroundColor png) = width png
  /\ height (styled options actualBackgroundColor png) = height png
  /\ length (data (styled options actualBackgroundColor png))
     = length (data png).
Proof.
  split; [reflexivity|]. split; [reflexivity|].
  unfold styled.
  apply (process_pixels_keeps (fun buf => length buf = length (data png)));
    [|reflexivity].
  intros w y x buf H. rewrite length_process_pixel. exact H.
Qed.

(** X13: the sweep keeps the dimensions of the raster and the length
    of its byte buffer, for every raster, well-formed or not: it never
    grows or shrinks the buffer. *)
Theorem sweep_keeps_dimensions (options : Options)
        (actualBackgroundColor : string) (png : PNGData) :
  width (styled options actualBackgroundColor png) = width png
  /\ height (styled options actualBackgroundColor png) = height png
  /\ length (data (styled options actualBackgroundColor png))
     = length (data png).
Proof. apply styled_dimensions. Qed.

Lemma styled_well_formed (options : Options)
      (actualBackgroundColor : string) (png : PNGData) :
  well_formed png ->
  well_formed (styled options actualBackgroundColor png).
Proof.
  intros (Hw & Hh & Hlen & H31 & Hall).
  destruct (styled_dimensions options actualBackgroundColor png)
    as (Ew & Eh & El).
  unfold well_formed. rewrite Ew, Eh, El. repeat split; try assumption.
  unfold styled.
  apply (process_pixels_keeps (Forall (fun v => 0 <= v <= 255)));
    [|exact Hall].
  intros w y x buf H. apply process_pixel_bytes. exact H.
Qed.

(** X14: the sweep keeps a decoded raster well-formed: the output has
    the same number of pixels and holds bytes only. *)
Theorem sweep_keeps_well_formed (options : Options)
        (actualBackgroundColor : string) (png : PNGData) :
  well_formed png ->
  well_formed (styled options actualBackgroundColor png).
Proof. apply styled_well_formed. Qed.

Lemma sweep_keeps_well_formed_witness :
  well_formed black_white
  /\ well_formed (styled orange_circles "#FFF3E0" black_white).
Proof.
  split; [exact well_formed_black_white|].
  exact (sweep_keeps_well_formed orange_circles "#FFF3E0" black_white
           well_formed_black_white).
Defined.

(* ================================================================== *)
(** ** The sweep of a decoded raster *)
(* ================================================================== *)

(** X7: every pixel of a decoded raster (fewer than [2 ^ 29] pixels)
    is classified from its R, G, B bytes alone: with [dF] and [dB] the
    Euclidean distances from the pixel to the requested foreground
    colour and to the background reference colour, the pixel is
    FOREGROUND iff [dF < dB], and BACKGROUND when [dF = dB]; the sweep
    paints it by that class. *)
Theorem decoded_pixels_nearest_color (options : Options)
        (actualBackgroundColor : string) (png : PNGData) (k : Z) :
  well_formed png -> 0 <= k < width png * height png ->
  exists (r g b a : Z) (F B : Color),
    pixel_at (data png) k = Some (r, g, b, a)
    /\ hexToRgb (requested_foreground options) = rgb_of_color F
    /\ hexToRgb actualBackgroundColor = rgb_of_color B
    /\ pixel_at (data (styled options actualBackgroundColor png)) k
       = Some (painted (transparent options) (rgb_of_color F)
                 (rgb_of_color B)
                 (classify r g b (rgb_of_color F) (rgb_of_color B)))
    /\ (classify r g b (rgb_of_color F) (rgb_of_color B) = FOREGROUND
        <-> (euclidean_distance (r, g, b) F
             < euclidean_distance (r, g, b) B)%R)
    /\ (euclidean_distance (r, g, b) F = euclidean_distance (r, g, b) B
        -> classify r g b (rgb_of_color F) (rgb_of_color B) = BACKGROUND).
Proof.
  intros Hwf Hk. rewrite <- foreground_of_requested.
  destruct (styled_pixel options actualBackgroundColor png k Hwf Hk)
    as (r & g & b & a & Ep & Hp & Eout).
  destruct (hexToRgb_color (foreground_of options)) as (F & EF & HF).
  destruct (hexToRgb_color actualBackgroundColor) as (B & EB & HB).
  exists r, g, b, a, F, B. rewrite EF, EB in Eout.
  repeat (split; [assumption|]).
  pose proof (classify_nearest (r, g, b) F B Hp HF HB) as Hc.
  cbv beta iota in Hc. rewrite Hc. unfold euclidean_distance.
  pose proof (squared_distance_nonneg (r, g, b) F) as NF.
  pose proof (squared_distance_nonneg (r, g, b) B) as NB.
  split.
  - rewrite sqrt_lt_iff by assumption.
    destruct (Z.ltb_spec (squared_distance (r, g, b) F)
                         (squared_distance (r, g, b) B));
      split; intros; try assumption; try reflexivity;
      try discriminate; lia.
  - intros E.
    destruct (Z.ltb_spec (squared_distance (r, g, b) F)
                         (squared_distance (r, g, b) B)) as [Hlt|];
      [|reflexivity].
    apply (sqrt_lt_iff _ _ NF NB) in Hlt. rewrite E in Hlt.
    exfalso. exact (Rlt_irrefl _ Hlt).
Qed.

(** The black pixel of the two-pixel raster, blue modules on the
    inverted background. *)
Lemma decoded_pixels_nearest_color_witness :
  exists (r g b a : Z) (F B : Color),
    pixel_at (data black_white) 0 = Some (r, g, b, a)
    /\ hexToRgb (requested_foreground blue_on_transparent) = rgb_of_color F
    /\ hexToRgb "#de690c" = rgb_of_color B
    /\ pixel_at (data (styled blue_on_transparent "#de690c" black_white)) 0
       = Some (painted (transparent blue_on_transparent) (rgb_of_color F)
                 (rgb_of_color B)
                 (classify r g b (rgb_of_color F) (rgb_of_color B)))
    /\ (classify r g b (rgb_of_color F) (rgb_of_color B) = FOREGROUND
        <-> (euclidean_distance (r, g, b) F
             < euclidean_distance (r, g, b) B)%R)
    /\ (euclidean_distance (r, g, b) F = euclidean_distance (r, g, b) B
        -> classify r g b (rgb_of_color F) (rgb_of_color B) = BACKGROUND).
Proof.
  apply (decoded_pixels_nearest_color blue_on_transparent "#de690c"
           black_white 0 well_formed_black_white).
  cbn. lia.
Defined.

(** X26: what [generateQR] makes of a pixel of a decoded raster: a
    FOREGROUND pixel gets the requested foreground colour with alpha
    255; a BACKGROUND pixel becomes [(0, 0, 0, 0)] in transparent mode,
    and otherwise gets the requested background colour with alpha 255.
    The class is taken against the requested foreground and, in
    transparent mode, its inverse, otherwise the requested
    background. *)
Theorem decoded_pixels_by_mode (options : Options) (png : PNGData) (k : Z) :
  well_formed png -> 0 <= k < width png * height png ->
  exists (r g b a f0 f1 f2 b0 b1 b2 : Z),
    pixel_at (data png) k = Some (r, g, b, a)
    /\ hexToRgb (requested_foreground options) = (Int f0, Int f1, Int f2)
    /\ hexToRgb (if transparent options
                 then invertColor (requested_foreground options)
                 else requested_background options)
       = (Int b0, Int b1, Int b2)
    /\ pixel_at (data (styled options (backgroundColorToUse options) png)) k
       = Some match classify r g b (Int f0, Int f1, Int f2)
                             (Int b0, Int b1, Int b2) with
              | FOREGROUND => (f0, f1, f2, 255)
              | BACKGROUND =>
                  if transparent options then (0, 0, 0, 0)
                  else (b0, b1, b2, 255)
              end.
Proof.
  intros Hwf Hk.
  destruct (styled_pixel options (backgroundColorToUse options) png k Hwf Hk)
    as (r & g & b & a & Ep & _ & Eout).
  assert (backgroundColorToUse options
          = if transparent options
            then invertColor (requested_foreground options)
            else requested_background options) as EB.
  { destruct (transparent options) eqn:Ht.
    - unfold backgroundColorToUse. rewrite Ht, foreground_of_requested.
      reflexivity.
    - apply background_of_requested. exact Ht. }
  rewrite foreground_of_requested in Eout. rewrite EB in Eout |- *.
  destruct (hexToRgb_channels (requested_foreground options))
    as (f0 & f1 & f2 & EF & H0 & H1 & H2).
  destruct (hexToRgb_channels
              (if transparent options
               then invertColor (requested_foreground options)
               else requested_background options))
    as (b0 & b1 & b2 & EB' & G0 & G1 & G2).
  exists r, g, b, a, f0, f1, f2, b0, b1, b2.
  split; [exact Ep|]. split; [exact EF|]. split; [exact EB'|].
  rewrite Eout, EF, EB'. unfold painted.
  destruct (classify r g b _ _); [|destruct (transparent options)];
    rewrite ?ToUint8_channel by assumption; reflexivity.
Qed.

(** The white pixel of the two-pixel raster, in either mode. *)
Lemma decoded_pixels_by_mode_witness :
  pixel_at (data (styled blue_on_transparent
                         (backgroundColorToUse blue_on_transparent)
                         black_white)) 1
  = Some (33, 150, 243, 255)
  /\ pixel_at (data (styled orange_circles
                            (backgroundColorToUse orange_circles)
                            black_white)) 1
     = Some (255, 243, 224, 255).
Proof.
  assert (0 <= 1 < width black_white * height black_white) as Hk
      by (cbn; lia).
  split.
  - destruct (decoded_pixels_by_mode blue_on_transparent black_white 1
                well_formed_black_white Hk)
      as (r & g & b & a & f0 & f1 & f2 & b0 & b1 & b2 & Ep & EF & EB & E).
    vm_compute in Ep. injection Ep as <- <- <- <-.
    vm_compute in EF. injection EF as <- <- <-.
    vm_compute in EB. injection EB as <- <- <-.
    rewrite E. vm_compute. reflexivity.
  - destruct (decoded_pixels_by_mode orange_circles black_white 1
                well_formed_black_white Hk)
      as (r & g & b & a & f0 & f1 & f2 & b0 & b1 & b2 & Ep & EF & EB & E).
    vm_compute in Ep. injection Ep as <- <- <- <-.
    vm_compute in EF. injection EF as <- <- <-.
    vm_compute in EB. injection EB as <- <- <-.
    rewrite E. vm_compute. reflexivity.
Defined.

(** X27: when the requested foreground colour and the background
    reference colour are the same colour, every pixel of a decoded
    raster is classified BACKGROUND (the two distances tie), and the
    output is uniformly the background colour with alpha 255, or
    [(0, 0, 0, 0)] in transparent mode. *)
Theorem same_colors_all_background (options : Options)
        (actualBackgroundColor : string) (png : PNGData) (k : Z) :
  hexToRgb (requested_foreground options) = hexToRgb actualBackgroundColor ->
  well_formed png -> 0 <= k < width png * height png ->
  exists (r g b a b0 b1 b2 : Z),
    pixel_at (data png) k = Some (r, g, b, a)
    /\ hexToRgb actualBackgroundColor = (Int b0, Int b1, Int b2)
    /\ classify r g b (hexToRgb (requested_foreground options))
                (hexToRgb actualBackgroundColor) = BACKGROUND
    /\ pixel_at (data (styled options actualBackgroundColor png)) k
       = Some (if transparent options then (0, 0, 0, 0)
               else (b0, b1, b2, 255)).
Proof.
  intros Hsame Hwf Hk.
  destruct (styled_pixel options actualBackgroundColor png k Hwf Hk)
    as (r & g & b & a & Ep & _ & Eout).
  destruct (hexToRgb_channels actualBackgroundColor)
    as (b0 & b1 & b2 & EB & G0 & G1 & G2).
  exists r, g, b, a, b0, b1, b2.
  rewrite foreground_of_requested in Eout.
  rewrite Hsame in *. rewrite classify_same in *.
  repeat (split; [assumption || reflexivity|]).
  rewrite Eout. unfold painted. destruct (transparent options);
    [reflexivity|].
  rewrite EB, !ToUint8_channel by assumption. reflexivity.
Qed.

(** Orange on the same orange, written without [#]. *)
Lemma same_colors_all_background_witness :
  hexToRgb (requested_foreground orange_circles) = hexToRgb "FF5722"
  /\ exists (r g b a b0 b1 b2 : Z),
      pixel_at (data black_white) 0 = Some (r, g, b, a)
      /\ hexToRgb "FF5722" = (Int b0, Int b1, Int b2)
      /\ classify r g b (hexToRgb (requested_foreground orange_circles))
                  (hexToRgb "FF5722") = BACKGROUND
      /\ pixel_at (data (styled orange_circles "FF5722" black_white)) 0
         = Some (if transparent orange_circles then (0, 0, 0, 0)
                 else (b0, b1, b2, 255)).
Proof.
  assert (hexToRgb (requested_foreground orange_circles) = hexToRgb "FF5722")
    as Hsame by (vm_compute; reflexivity).
  assert (0 <= 0 < width black_white * height black_white) as Hk
      by (cbn; lia).
  split; [exact Hsame|].
  exact (same_colors_all_background orange_circles "FF5722" black_white 0
           Hsame well_formed_black_white Hk).
Defined.

(* ================================================================== *)
(** ** The sweep, pixel by pixel *)
(* ================================================================== *)

(** The pixel left at [k] by the sweep, in terms of [recolored]. *)
Lemma styled_recolored (options : Options) (actualBackgroundColor : string)
      (png : PNGData) (k : Z) :
  well_formed png -> 0 <= k < width png * height png ->
  pixel_at (data (styled options actualBackgroundColor png)) k
  = option_map (recolored (transparent options)
                  (hexToRgb (foreground_of options))
                  (hexToRgb actualBackgroundColor))
               (pixel_at (data png) k).
Proof.
  intros Hwf Hk. unfold styled.
  destruct (swept_all (transparent options)
              (hexToRgb (foreground_of options))
              (hexToRgb actualBackgroundColor) png Hwf) as (_ & Hdone & _).
  exact (Hdone k Hk).
Qed.

(** A pixel that is there has a number within the raster. *)
Lemma pixel_at_inside (buf : list Z) (k : Z) (p : pixel) :
  pixel_at buf k = Some p -> 0 <= k /\ 4 * (k + 1) <= Z.of_nat (length buf).
Proof.
  unfold pixel_at, Bytes.get.
  destruct (Z.ltb_spec (4 * k) 0); [discriminate|].
  destruct (buf !! Z.to_nat (4 * k)); [|discriminate].
  destruct (Z.ltb_spec (4 * k + 1) 0); [discriminate|].
  destruct (buf !! Z.to_nat (4 * k + 1)); [|discriminate].
  destruct (Z.ltb_spec (4 * k + 2) 0); [discriminate|].
  destruct (buf !! Z.to_nat (4 * k + 2)); [|discriminate].
  destruct (Z.ltb_spec (4 * k + 3) 0); [discriminate|].
  destruct (buf !! Z.to_nat (4 * k + 3)) eqn:E; [|discriminate].
  intros _. apply lookup_lt_Some in E. lia.
Qed.

(** Two buffers of the same length, a whole number of pixels, that
    agree pixel by pixel are the same buffer. *)
Lemma pixels_ext (buf1 buf2 : list Z) (n : Z) :
  Z.of_nat (length buf1) = 4 * n -> length buf2 = length buf1 ->
  (forall k, 0 <= k < n -> pixel_at buf1 k = pixel_at buf2 k) ->
  buf1 = buf2.
Proof.
  intros Hlen Hsame Hpix. apply list_eq. intros i.
  destruct (Nat.lt_ge_cases i (length buf1)) as [Hi|Hi].
  2:{ rewrite !lookup_ge_None_2 by lia. reflexivity. }
  set (k := Z.of_nat i / 4).
  assert (0 <= k < n) as Hk
      by (unfold k; split; [apply Z.div_pos; lia
                           | apply Z.div_lt_upper_bound; lia]).
  pose proof (Z.div_mod (Z.of_nat i) 4 ltac:(lia)) as Hdm. fold k in Hdm.
  pose proof (Z.mod_pos_bound (Z.of_nat i) 4 ltac:(lia)) as Hm.
  destruct (pixel_at_Some buf1 k) as (r1 & g1 & b1 & a1 & R1 & G1 & B1 & A1 & P1);
    [lia | lia |].
  destruct (pixel_at_Some buf2 k) as (r2 & g2 & b2 & a2 & R2 & G2 & B2 & A2 & P2);
    [lia | lia |].
  pose proof (Hpix k Hk) as E. rewrite P1, P2 in E.
  injection E as <- <- <- <-.
  assert (forall buf j, 0 <= j -> Bytes.get buf j = buf !! Z.to_nat j) as Hget
      by (intros buf j Hj; unfold Bytes.get;
          destruct (Z.ltb_spec j 0); [lia|reflexivity]).
  rewrite Hget in R1, G1, B1, A1, R2, G2, B2, A2 by lia.
  assert (Z.of_nat i mod 4 = 0 \/ Z.of_nat i mod 4 = 1
          \/ Z.of_nat i mod 4 = 2 \/ Z.of_nat i mod 4 = 3) as Hcase by lia.
  destruct Hcase as [Hj | [Hj | [Hj | Hj]]].
  - replace i with (Z.to_nat (4 * k)) by lia. congruence.
  - replace i with (Z.to_nat (4 * k + 1)) by lia. congruence.
  - replace i with (Z.to_nat (4 * k + 2)) by lia. congruence.
  - replace i with (Z.to_nat (4 * k + 3)) by lia. congruence.
Qed.

Lemma recolored_ignores_alpha (t : bool) (F B : rgb) (r g b a a' : Z) :
  recolored t F B (r, g, b, a) = recolored t F B (r, g, b, a').
Proof. reflexivity. Qed.

(** The class of a pixel that has exactly one of the two reference
    colours. *)
Lemma classify_exact (F B : Color) :
  channels3 F -> channels3 B -> F <> B ->
  (let '(r, g, b) := F in
   classify r g b (rgb_of_color F) (rgb_of_color B)) = FOREGROUND
  /\ (let '(r, g, b) := B in
      classify r g b (rgb_of_color F) (rgb_of_color B)) = BACKGROUND.
Proof.
  intros HF HB Hne.
  rewrite (classify_nearest F F B HF HF HB).
  rewrite (classify_nearest B F B HB HF HB).
  destruct F as [[f0 f1] f2], B as [[b0 b1] b2].
  unfold squared_distance.
  replace ((f0 - f0) * (f0 - f0) + (f1 - f1) * (f1 - f1)
           + (f2 - f2) * (f2 - f2)) with 0 by lia.
  replace ((b0 - b0) * (b0 - b0) + (b1 - b1) * (b1 - b1)
           + (b2 - b2) * (b2 - b2)) with 0 by lia.
  pose proof (Z.square_nonneg (f0 - b0)).
  pose proof (Z.square_nonneg (f1 - b1)).
  pose proof (Z.square_nonneg (f2 - b2)).
  pose proof (Z.square_nonneg (b0 - f0)).
  pose proof (Z.square_nonneg (b1 - f1)).
  pose proof (Z.square_nonneg (b2 - f2)).
  assert (0 < (f0 - b0) * (f0 - b0) + (f1 - b1) * (f1 - b1)
              + (f2 - b2) * (f2 - b2)) as Hpos.
  { destruct (Z.eq_dec f0 b0) as [->|]; [|nia].
    destruct (Z.eq_dec f1 b1) as [->|]; [|nia].
    destruct (Z.eq_dec f2 b2) as [->|]; [|nia].
    contradiction Hne; reflexivity. }
  split.
  - destruct (Z.ltb_spec 0 ((f0 - b0) * (f0 - b0) + (f1 - b1) * (f1 - b1)
                            + (f2 - b2) * (f2 - b2))); [reflexivity|lia].
  - destruct (Z.ltb_spec ((b0 - f0) * (b0 - f0) + (b1 - f1) * (b1 - f1)
                          + (b2 - f2) * (b2 - f2)) 0); [lia|reflexivity].
Qed.

Lemma channels3_of_rgb (hex : string) (c : Color) :
  hexToRgb hex = rgb_of_color c -> channels3 c.
Proof.
  intros E. destruct (hexToRgb_channels hex) as (r & g & b & E' & Hr & Hg & Hb).
  rewrite E' in E. destruct c as [[c0 c1] c2]. injection E as <- <- <-.
  unfold channels3. auto.
Qed.

(** The pixel painted for a class, on channel values. *)
Lemma painted_color (t : bool) (F B : Color) (c : PixelClass) :
  channels3 F -> channels3 B ->
  painted t (rgb_of_color F) (rgb_of_color B) c =
  match c with
  | FOREGROUND => (F, 255)
  | BACKGROUND => if t then (0, 0, 0, 0) else (B, 255)
  end.
Proof.
  destruct F as [[f0 f1] f2], B as [[b0 b1] b2].
  intros (H0 & H1 & H2) (G0 & G1 & G2). unfold painted, rgb_of_color.
  destruct c; [|destruct t]; rewrite ?ToUint8_channel by assumption;
    reflexivity.
Qed.

(** X15: a pixel that has exactly the foreground colour is classified
    FOREGROUND and a pixel that has exactly the background colour is
    classified BACKGROUND, whenever the two reference colours differ. *)
Theorem exact_colors_classified (F B : Color) :
  channels3 F -> channels3 B -> F <> B ->
  (let '(r, g, b) := F in
   classify r g b (rgb_of_color F) (rgb_of_color B)) = FOREGROUND
  /\ (let '(r, g, b) := B in
      classify r g b (rgb_of_color F) (rgb_of_color B)) = BACKGROUND.
Proof. apply classify_exact. Qed.

Lemma exact_colors_classified_witness :
  classify 33 150 243 (Int 33, Int 150, Int 243) (Int 222, Int 105, Int 12)
  = FOREGROUND
  /\ classify 222 105 12 (Int 33, Int 150, Int 243) (Int 222, Int 105, Int 12)
     = BACKGROUND.
Proof.
  apply (exact_colors_classified (33, 150, 243) (222, 105, 12));
    unfold channels3, channel; try lia.
  discriminate.
Defined.

(** X16: the alpha bytes of the input play no part: two decoded rasters
    of the same dimensions whose pixels agree on R, G and B are swept
    into the same buffer. *)
Theorem sweep_ignores_alpha (options : Options)
        (actualBackgroundColor : string) (png1 png2 : PNGData) :
  well_formed png1 -> well_formed png2 -> same_rgb png1 png2 ->
  data (styled options actualBackgroundColor png1)
  = data (styled options actualBackgroundColor png2).
Proof.
  intros Hwf1 Hwf2 (Ew & Eh & Hrgb).
  destruct (styled_dimensions options actualBackgroundColor png1)
    as (_ & _ & L1).
  destruct (styled_dimensions options actualBackgroundColor png2)
    as (_ & _ & L2).
  pose proof Hwf1 as (_ & _ & Hlen1 & _ & _).
  pose proof Hwf2 as (_ & _ & Hlen2 & _ & _).
  apply (pixels_ext _ _ (width png1 * height png1)).
  - rewrite L1. exact Hlen1.
  - rewrite L1, L2. apply Nat2Z.inj. rewrite Hlen1, Hlen2, Ew, Eh.
    reflexivity.
  - intros k Hk.
    rewrite (styled_recolored _ _ png1 k Hwf1 Hk).
    rewrite (styled_recolored _ _ png2 k Hwf2) by (rewrite <- Ew, <- Eh; exact Hk).
    destruct (pixel_at_Some (data png1) k) as (r & g & b & a & _ & _ & _ & _ & P1);
      [lia | lia |].
    destruct (Hrgb k r g b a P1) as (a' & P2).
    rewrite P1, P2. reflexivity.
Qed.

Lemma sweep_ignores_alpha_witness :
  data (styled blue_on_transparent "#de690c" black_white)
  = data (styled blue_on_transparent "#de690c"
            (mkPNG 2 1 [0; 0; 0; 0; 255; 255; 255; 17])).
Proof.
  apply (sweep_ignores_alpha blue_on_transparent "#de690c" black_white
           (mkPNG 2 1 [0; 0; 0; 0; 255; 255; 255; 17])).
  - exact well_formed_black_white.
  - unfold well_formed. cbn [width height data length].
    repeat split; try lia; try reflexivity. repeat constructor; lia.
  - split; [reflexivity|]. split; [reflexivity|].
    intros k r g b a H.
    destruct (pixel_at_inside _ _ _ H) as [H0 H1].
    change (Z.of_nat (length (data black_white))) with 8 in H1.
    assert (k = 0 \/ k = 1) as [-> | ->] by lia;
      vm_compute in H; injection H as <- <- <- <-; eexists; reflexivity.
Defined.

(** The sweep of a two-tone raster in opaque mode changes no byte. *)
Lemma two_tone_fixed (options : Options) (actualBackgroundColor : string)
      (png : PNGData) (F B : Color) :
  transparent options = false ->
  hexToRgb (foreground_of options) = rgb_of_color F ->
  hexToRgb actualBackgroundColor = rgb_of_color B ->
  well_formed png -> two_tone F B png ->
  styled options actualBackgroundColor png = png.
Proof.
  intros Ht EF EB Hwf Htone.
  pose proof (channels3_of_rgb _ _ EF) as HF.
  pose proof (channels3_of_rgb _ _ EB) as HB.
  destruct (styled_dimensions options actualBackgroundColor png)
    as (_ & _ & L).
  pose proof Hwf as (_ & _ & Hlen & _ & _).
  assert (data (styled options actualBackgroundColor png) = data png) as E.
  { apply (pixels_ext _ _ (width png * height png)).
    - rewrite L. exact Hlen.
    - symmetry. exact L.
    - intros k Hk. rewrite (styled_recolored _ _ png k Hwf Hk).
      destruct (pixel_at_Some (data png) k)
        as (r & g & b & a & _ & _ & _ & _ & P); [lia | lia |].
      rewrite P. cbn [option_map]. apply (f_equal Some).
      rewrite recolored_painted, Ht, EF, EB.
      rewrite painted_color by assumption.
      destruct (Z.eq_dec (fst (fst F)) (fst (fst B))) as [E0|N0];
        [destruct (Z.eq_dec (snd (fst F)) (snd (fst B))) as [E1|N1];
         [destruct (Z.eq_dec (snd F) (snd B)) as [E2|N2]|]|].
      + (* the two reference colours are the same *)
        assert (F = B) as ->
            by (destruct F as [[? ?] ?], B as [[? ?] ?]; cbn in *; congruence).
        rewrite classify_same.
        destruct (Htone k _ P) as [-> | ->]; reflexivity.
      + assert (F <> B) as Hne by (intros ->; contradiction).
        destruct (classify_exact F B HF HB Hne) as [CF CB].
        destruct F as [[f0 f1] f2], B as [[b0 b1] b2].
        destruct (Htone k _ P) as [[= -> -> -> ->] | [= -> -> -> ->]];
          [rewrite CF | rewrite CB]; reflexivity.
      + assert (F <> B) as Hne by (intros ->; contradiction).
        destruct (classify_exact F B HF HB Hne) as [CF CB].
        destruct F as [[f0 f1] f2], B as [[b0 b1] b2].
        destruct (Htone k _ P) as [[= -> -> -> ->] | [= -> -> -> ->]];
          [rewrite CF | rewrite CB]; reflexivity.
      + assert (F <> B) as Hne by (intros ->; contradiction).
        destruct (classify_exact F B HF HB Hne) as [CF CB].
        destruct F as [[f0 f1] f2], B as [[b0 b1] b2].
        destruct (Htone k _ P) as [[= -> -> -> ->] | [= -> -> -> ->]];
          [rewrite CF | rewrite CB]; reflexivity. }
  destruct png as [w h d]. unfold styled, process_pixels in *.
  cbn [width height data] in *. rewrite E. reflexivity.
Qed.

(** In opaque mode the sweep leaves a two-tone raster. *)
Lemma styled_two_tone (options : Options) (actualBackgroundColor : string)
      (png : PNGData) (F B : Color) :
  transparent options = false ->
  hexToRgb (foreground_of options) = rgb_of_color F ->
  hexToRgb actualBackgroundColor = rgb_of_color B ->
  well_formed png ->
  two_tone F B (styled options actualBackgroundColor png).
Proof.
  intros Ht EF EB Hwf k p Hp.
  pose proof (channels3_of_rgb _ _ EF) as HF.
  pose proof (channels3_of_rgb _ _ EB) as HB.
  destruct (styled_dimensions options actualBackgroundColor png)
    as (_ & _ & L).
  pose proof Hwf as (_ & _ & Hlen & _ & _).
  destruct (pixel_at_inside _ _ _ Hp) as [H0 H1]. rewrite L in H1.
  rewrite (styled_recolored _ _ png k Hwf) in Hp by lia.
  destruct (pixel_at_Some (data png) k)
    as (r & g & b & a & _ & _ & _ & _ & P); [lia | lia |].
  rewrite P in Hp. cbn [option_map] in Hp.
  rewrite recolored_painted, Ht, EF, EB, painted_color in Hp by assumption.
  destruct (classify r g b _ _); injection Hp as <-; auto.
Qed.

(** X17: in opaque mode the sweep changes nothing in a decoded raster
    that is already two-tone, every pixel being the foreground or the
    background colour with alpha 255: the output is the input. *)
Theorem opaque_sweep_fixes_two_tone (options : Options)
        (actualBackgroundColor : string) (png : PNGData) (F B : Color) :
  transparent options = false ->
  hexToRgb (foreground_of options) = rgb_of_color F ->
  hexToRgb actualBackgroundColor = rgb_of_color B ->
  well_formed png -> two_tone F B png ->
  styled options actualBackgroundColor png = png.
Proof. apply two_tone_fixed. Qed.

Lemma opaque_sweep_fixes_two_tone_witness :
  styled version_one "#FFFFFF" black_white = black_white.
Proof.
  apply (opaque_sweep_fixes_two_tone version_one "#FFFFFF" black_white
           (0, 0, 0) (255, 255, 255)).
  - reflexivity.
  - vm_compute. reflexivity.
  - vm_compute. reflexivity.
  - exact well_formed_black_white.
  - intros k p H.
    destruct (pixel_at_inside _ _ _ H) as [H0 H1].
    change (Z.of_nat (length (data black_white))) with 8 in H1.
    assert (k = 0 \/ k = 1) as [-> | ->] by lia;
      vm_compute in H; injection H as <-; [left | right]; reflexivity.
Defined.

(** X18: in opaque mode the sweep is idempotent on decoded rasters. *)
Theorem opaque_sweep_idempotent (options : Options)
        (actualBackgroundColor : string) (png : PNGData) :
  transparent options = false -> well_formed png ->
  styled options actualBackgroundColor
         (styled options actualBackgroundColor png)
  = styled options actualBackgroundColor png.
Proof.
  intros Ht Hwf.
  destruct (hexToRgb_color (foreground_of options)) as (F & EF & _).
  destruct (hexToRgb_color actualBackgroundColor) as (B & EB & _).
  apply (two_tone_fixed _ _ _ F B Ht EF EB).
  - apply styled_well_formed. exact Hwf.
  - apply styled_two_tone; assumption.
Qed.

Lemma opaque_sweep_idempotent_witness :
  styled orange_circles "#FFF3E0" (styled orange_circles "#FFF3E0" black_white)
  = styled orange_circles "#FFF3E0" black_white.
Proof.
  apply (opaque_sweep_idempotent orange_circles "#FFF3E0" black_white).
  - reflexivity.
  - exact well_formed_black_white.
Defined.

(* ================================================================== *)
(** ** [generateQR] with an encoder that paints the requested colours *)
(* ================================================================== *)

Lemma complement_channels3 (c : Color) : channels3 c -> channels3 (complement c).
Proof.
  destruct c as [[c0 c1] c2]. unfold channels3, complement, channel. lia.
Qed.

Lemma complement_differs (c : Color) : c <> complement c.
Proof.
  destruct c as [[c0 c1] c2]. unfold complement. intros [= H _ _]. lia.
Qed.

(** In transparent mode the background reference colour is the
    complement of the foreground colour. *)
Lemma transparent_background (options : Options) (D : Color) :
  transparent options = true ->
  hexToRgb (foreground_of options) = rgb_of_color D ->
  hexToRgb (backgroundColorToUse options) = rgb_of_color (complement D).
Proof.
  intros Ht E. pose proof (channels3_of_rgb _ _ E) as HD.
  unfold backgroundColorToUse. rewrite Ht.
  destruct D as [[r g] b]. destruct HD as (Hr & Hg & Hb).
  destruct (invertColor_channels _ r g b E Hr Hg Hb) as [_ E'].
  exact E'.
Qed.

(** X19: when the encoder paints exactly the two colours it was asked
    for, a module shape other than [square] changes nothing in opaque
    mode: [generateQR] returns the re-encoding of the very raster the
    encoder produced. *)
Theorem generateQR_shape_changes_nothing
        (Buffer : Type) (toBuffer : string -> QROptions -> settled Buffer)
        (png_parse : Buffer -> Error + PNGData)
        (png_write : PNGData -> Buffer) (data : string) (options : Options)
        (buffer : Buffer) (png : PNGData) (D L : Color) :
  transparent options = false ->
  wants_styling options = true ->
  toBuffer data (qrOptions options) = Fulfilled buffer ->
  png_parse buffer = inr png ->
  well_formed png ->
  hexToRgb (dark (color (qrOptions options))) = rgb_of_color D ->
  hexToRgb (light (color (qrOptions options))) = rgb_of_color L ->
  two_tone D L png ->
  generateQR Buffer toBuffer png_parse png_write data options
  = ([], Fulfilled (png_write png)).
Proof.
  intros Ht Hs Henc Hparse Hwf ED EL Htone.
  rewrite (generateQR_cases Buffer toBuffer png_parse png_write).
  rewrite Henc, Hs, Hparse.
  cbn [qrOptions color dark light] in ED, EL.
  rewrite (two_tone_fixed options (backgroundColorToUse options) png D L
             Ht ED EL Hwf Htone).
  reflexivity.
Qed.

Lemma generateQR_shape_changes_nothing_witness :
  generateQR string unstyled_encoder (fun _ => inr black_white)
             (fun png => "re-encoded"%string) "hello"
             (mkOptions None None false (Some "circle"%string)
                        None None None None)
  = ([], Fulfilled "re-encoded"%string).
Proof.
  apply (generateQR_shape_changes_nothing
           string unstyled_encoder (fun _ => inr black_white)
           (fun png => "re-encoded"%string) "hello"
           (mkOptions None None false (Some "circle"%string)
                      None None None None)
           "unstyled png"%string black_white (0, 0, 0) (255, 255, 255)).
  - reflexivity.
  - reflexivity.
  - reflexivity.
  - reflexivity.
  - exact well_formed_black_white.
  - vm_compute. reflexivity.
  - vm_compute. reflexivity.
  - intros k p H.
    destruct (pixel_at_inside _ _ _ H) as [H0 H1].
    change (Z.of_nat (length (data black_white))) with 8 in H1.
    assert (k = 0 \/ k = 1) as [-> | ->] by lia;
      vm_compute in H; injection H as <-; [left | right]; reflexivity.
Defined.

(** X20: in transparent mode, when the encoder paints exactly the two
    colours it was asked for and its image is a decoded raster (of
    fewer than [2 ^ 29] pixels), [generateQR] returns a raster of the
    same dimensions in which every dark pixel is kept, opaque, and
    every light pixel has become the fully transparent
    [(0, 0, 0, 0)]. *)
Theorem generateQR_transparent_exact
        (Buffer : Type) (toBuffer : string -> QROptions -> settled Buffer)
        (png_parse : Buffer -> Error + PNGData)
        (png_write : PNGData -> Buffer) (text : string) (options : Options)
        (buffer : Buffer) (png : PNGData) (D L : Color) :
  transparent options = true ->
  toBuffer text (qrOptions options) = Fulfilled buffer ->
  png_parse buffer = inr png ->
  well_formed png ->
  hexToRgb (dark (color (qrOptions options))) = rgb_of_color D ->
  hexToRgb (light (color (qrOptions options))) = rgb_of_color L ->
  two_tone D L png ->
  exists out : PNGData,
    generateQR Buffer toBuffer png_parse png_write text options
    = ([], Fulfilled (png_write out))
    /\ width out = width png /\ height out = height png
    /\ length (data out) = length (data png)
    /\ forall k : Z,
        (pixel_at (data png) k = Some (D, 255) ->
         pixel_at (data out) k = Some (D, 255))
        /\ (pixel_at (data png) k = Some (L, 255) ->
            pixel_at (data out) k = Some (0, 0, 0, 0)).
Proof.
  intros Ht Henc Hparse Hwf ED EL Htone.
  exists (styled options (backgroundColorToUse options) png).
  split.
  { rewrite (generateQR_cases Buffer toBuffer png_parse png_write).
    rewrite Henc, Hparse. unfold wants_styling. rewrite Ht. reflexivity. }
  destruct (styled_dimensions options (backgroundColorToUse options) png)
    as (Ew & Eh & El).
  split; [exact Ew|]. split; [exact Eh|]. split; [exact El|].
  cbn [qrOptions color dark light] in ED, EL.
  pose proof (transparent_background options D Ht ED) as EB.
  assert (L = complement D) as ->.
  { rewrite EL in EB. destruct L as [[l0 l1] l2], D as [[d0 d1] d2].
    unfold complement, rgb_of_color in *. congruence. }
  pose proof (channels3_of_rgb _ _ ED) as HD.
  pose proof (complement_channels3 D HD) as HL.
  destruct (classify_exact D (complement D) HD HL (complement_differs D))
    as [CF CB].
  pose proof Hwf as (_ & _ & Hlen & _ & _).
  intros k. split; intros P;
    destruct (pixel_at_inside _ _ _ P) as [H0 H1];
    rewrite (styled_recolored _ _ png k Hwf) by lia;
    rewrite P; cbn [option_map]; apply (f_equal Some);
    rewrite Ht, ED, EL.
  - destruct D as [[d0 d1] d2].
    rewrite recolored_painted, CF, painted_color by assumption. reflexivity.
  - destruct D as [[d0 d1] d2]. unfold complement in *.
    rewrite recolored_painted, CB, painted_color by assumption. reflexivity.
Qed.

Lemma generateQR_transparent_exact_witness :
  exists out : PNGData,
    generateQR string unstyled_encoder
               (fun _ => inr (mkPNG 1 2 [33; 150; 243; 255; 222; 105; 12; 255]))
               (fun png => "re-encoded"%string) "hello" blue_on_transparent
    = ([], Fulfilled "re-encoded"%string)
    /\ pixel_at (data out) 0 = Some (33, 150, 243, 255)
    /\ pixel_at (data out) 1 = Some (0, 0, 0, 0).
Proof.
  destruct (generateQR_transparent_exact
              string unstyled_encoder
              (fun _ => inr (mkPNG 1 2 [33; 150; 243; 255; 222; 105; 12; 255]))
              (fun png => "re-encoded"%string) "hello" blue_on_transparent
              "unstyled png"%string
              (mkPNG 1 2 [33; 150; 243; 255; 222; 105; 12; 255])
              (33, 150, 243) (222, 105, 12))
    as (out & E & _ & _ & _ & H).
  - reflexivity.
  - reflexivity.
  - reflexivity.
  - unfold well_formed. cbn [width height data length].
    repeat split; try lia; try reflexivity. repeat constructor; lia.
  - vm_compute. reflexivity.
  - vm_compute. reflexivity.
  - intros k p P.
    destruct (pixel_at_inside _ _ _ P) as [H0 H1].
    cbn [data length] in H1.
    assert (k = 0 \/ k = 1) as [-> | ->] by lia;
      vm_compute in P; injection P as <-; [left | right]; reflexivity.
  - exists out. split; [exact E|]. split.
    + apply (proj1 (H 0)). reflexivity.
    + apply (proj2 (H 1)). reflexivity.
Defined.

(* ================================================================== *)
(** ** The colour filters of the prompts *)
(* ================================================================== *)

Lemma prefix_empty (s : string) : String.prefix "" s = true.
Proof. destruct s; reflexivity. Qed.

Lemma startsWith_hash (s : string) : Text.startsWith "#" s = hash_first s.
Proof.
  destruct s as [|c t]; [reflexivity|].
  unfold Text.startsWith. simpl String.prefix.
  destruct (ascii_dec "#" c) as [<-|N].
  - rewrite prefix_empty. reflexivity.
  - destruct c as [[] [] [] [] [] [] [] []]; try reflexivity.
    contradiction N. reflexivity.
Qed.

Lemma foreground_filter_unfold (input : string) :
  foreground_filter input
  = if hash_first input then input
    else String "#" (Text.replace "#" "" input).
Proof. unfold foreground_filter. rewrite startsWith_hash. reflexivity. Qed.

Lemma foreground_filter_hash (input : string) :
  hash_first (foreground_filter input) = true.
Proof.
  rewrite foreground_filter_unfold.
  destruct (hash_first input) eqn:E; [exact E | reflexivity].
Qed.

Lemma replace_step (c : ascii) (t : string) :
  hash_first (String c t) = false ->
  Text.replace "#" "" (String c t) = String c (Text.replace "#" "" t).
Proof.
  intros H. cbn [Text.replace].
  change (String.prefix "#" (String c t))
    with (Text.startsWith "#" (String c t)).
  rewrite startsWith_hash, H. reflexivity.
Qed.

Lemma hex_not_hash (c : ascii) (t : string) :
  is_hex_digit c = true -> hash_first (String c t) = false.
Proof.
  destruct c as [[] [] [] [] [] [] [] []]; try reflexivity; discriminate.
Qed.

Lemma strip_hash_id (s : string) : hash_first s = false -> strip_hash s = s.
Proof.
  destruct s as [|c t]; [reflexivity|].
  destruct c as [[] [] [] [] [] [] [] []]; try reflexivity. discriminate.
Qed.

Lemma canonical_hash (s : string) :
  canonical_hex_color s = true -> hash_first s = true.
Proof.
  destruct s as [|c t]; [discriminate|].
  destruct c as [[] [] [] [] [] [] [] []]; try discriminate. reflexivity.
Qed.

Lemma hash_truthy (s : string) (d : string) :
  hash_first s = true -> JS.or_string (Some s) d = s.
Proof. destruct s; [discriminate | reflexivity]. Qed.

(** A valid colour without [#] is given one by the filter, and nothing
    else is changed. *)
Lemma foreground_filter_valid (input : string) :
  valid_hex_color input = true ->
  foreground_filter input
  = if hash_first input then input else String "#" input.
Proof.
  intros V. rewrite foreground_filter_unfold.
  destruct (hash_first input) eqn:H; [reflexivity|].
  unfold valid_hex_color in V. rewrite (strip_hash_id _ H) in V.
  destruct input as [|c1 [|c2 [|c3 [|c4 [|c5 [|c6 [|c7 t]]]]]]];
    try discriminate.
  cbn [six_chars] in V.
  repeat (apply andb_prop in V; destruct V as [V ?]).
  rewrite !replace_step by (apply hex_not_hash; assumption).
  reflexivity.
Qed.

(** X21: the colour filter of the prompts always returns a string that
    begins with [#], and filtering twice is filtering once. *)
Theorem foreground_filter_idempotent (input : string) :
  hash_first (foreground_filter input) = true
  /\ foreground_filter (foreground_filter input) = foreground_filter input.
Proof.
  split; [apply foreground_filter_hash|].
  rewrite (foreground_filter_unfold (foreground_filter input)).
  rewrite foreground_filter_hash. reflexivity.
Qed.

(** X22: the colour filter keeps every valid colour: the filtered
    string is the input, with [#] put in front when it had none, it is
    valid, and [hexToRgb] reads it as the same colour. *)
Theorem foreground_filter_keeps_valid_colors (input : string) :
  valid_hex_color input = true ->
  foreground_filter input
  = (if hash_first input then input else String "#" input)
  /\ valid_hex_color (foreground_filter input) = true
  /\ hexToRgb (foreground_filter input) = hexToRgb input.
Proof.
  intros V. rewrite (foreground_filter_valid input V).
  split; [reflexivity|].
  destruct (hash_first input) eqn:H; [split; [exact V | reflexivity]|].
  assert (valid_hex_color (String "#" input) = valid_hex_color input) as E.
  { unfold valid_hex_color. rewrite (strip_hash_id _ H). reflexivity. }
  split; [rewrite E; exact V|].
  rewrite !hexToRgb_closed_form, E. rewrite (strip_hash_id _ H).
  reflexivity.
Qed.

Lemma foreground_filter_keeps_valid_colors_witness :
  foreground_filter "2196F3" = "#2196F3"%string
  /\ valid_hex_color (foreground_filter "2196F3") = true
  /\ hexToRgb (foreground_filter "2196F3") = hexToRgb "2196F3".
Proof.
  exact (foreground_filter_keeps_valid_colors "2196F3" eq_refl).
Defined.

(* ================================================================== *)
(** ** The colours the two entry points hand to [generateQR] *)
(* ================================================================== *)

Lemma background_filter_cases (input : string) :
  (Text.toLowerCase input = "transparent"%string
   /\ background_filter input = "transparent"%string)
  \/ (Text.toLowerCase input <> "transparent"%string
      /\ background_filter input = foreground_filter input).
Proof.
  unfold background_filter, foreground_filter.
  destruct (String.eqb_spec (Text.toLowerCase input) "transparent");
    [left | right]; split; auto.
Qed.

Lemma answers_transparent (typed : Typed) :
  transparent (answers typed) = true
  <-> Text.toLowerCase (typed_backgroundColor typed) = "transparent"%string.
Proof.
  unfold answers. cbn [transparent].
  destruct (background_filter_cases (typed_backgroundColor typed))
    as [[E ->] | [N ->]].
  - split; [intros _; exact E | reflexivity].
  - split; [|intros E; contradiction].
    intros H. apply String.eqb_eq in H.
    pose proof (foreground_filter_hash (typed_backgroundColor typed)) as F.
    rewrite H in F. discriminate F.
Qed.

Lemma answers_colors (typed : Typed) :
  hash_first (dark (color (qrOptions (answers typed)))) = true
  /\ hash_first (light (color (qrOptions (answers typed)))) = true.
Proof.
  unfold qrOptions. cbn [color dark light]. split.
  - unfold foreground_of, answers. cbn [foregroundColor].
    rewrite hash_truthy; apply foreground_filter_hash.
  - unfold backgroundColorToUse.
    destruct (transparent (answers typed)) eqn:T.
    + apply canonical_hash.
      destruct (hexToRgb_channels (foreground_of (answers typed)))
        as (r & g & b & E & Hr & Hg & Hb).
      destruct (invertColor_channels _ r g b E Hr Hg Hb) as [-> _].
      apply rgbToHex_canonical; unfold channel in *; lia.
    + unfold answers in *. cbn [backgroundColor transparent] in *.
      destruct (background_filter_cases (typed_backgroundColor typed))
        as [[_ E] | [_ E]]; rewrite E in *; [discriminate T|].
      rewrite hash_truthy; apply foreground_filter_hash.
Qed.

(** X23: in interactive mode transparency is requested exactly when the
    background typed, put in lower case, is [transparent]; and the two
    colours handed to the encoder always begin with [#]. *)
Theorem interactive_colors (typed : Typed) :
  (transparent (answers typed) = true
   <-> Text.toLowerCase (typed_backgroundColor typed) = "transparent"%string)
  /\ hash_first (dark (color (qrOptions (answers typed)))) = true
  /\ hash_first (light (color (qrOptions (answers typed)))) = true.
Proof.
  split; [apply answers_transparent | apply answers_colors].
Qed.

Lemma interactive_colors_witness :
  transparent (answers (mkTyped "hello" "M" (Int 300) (Int 4) "2196F3"
                                "Transparent" "square" (Int 0))) = true
  /\ light (color (qrOptions
                     (answers (mkTyped "hello" "M" (Int 300) (Int 4) "2196F3"
                                       "Transparent" "square" (Int 0)))))
     = "#de690c"%string.
Proof.
  split.
  - apply (proj1 (interactive_colors
                    (mkTyped "hello" "M" (Int 300) (Int 4) "2196F3"
                             "Transparent" "square" (Int 0)))).
    reflexivity.
  - vm_compute. reflexivity.
Defined.

(** X24: neither entry point hands the word [transparent] to the
    encoder as a colour. *)
Theorem transparent_never_a_color (typed : Typed) (cl : CommandLine) :
  light (color (qrOptions (answers typed))) <> "transparent"%string
  /\ light (color (qrOptions (cli_options cl))) <> "transparent"%string.
Proof.
  split.
  - intros E. destruct (answers_colors typed) as [_ H].
    rewrite E in H. discriminate H.
  - unfold qrOptions, backgroundColorToUse, cli_options.
    cbn [color light transparent backgroundColor].
    destruct (String.eqb_spec (cli_backgroundColor cl) "transparent")
      as [_|N].
    + intros E.
      match type of E with
      | invertColor ?c = _ =>
          destruct (hexToRgb_channels c) as (r & g & b & E' & Hr & Hg & Hb);
          destruct (invertColor_channels c r g b E' Hr Hg Hb) as [E2 _]
      end.
      assert (canonical_hex_color "transparent" = true) as C.
      { rewrite <- E, E2.
        apply rgbToHex_canonical; unfold channel in *; lia. }
      discriminate C.
    + unfold JS.or_string.
      destruct (JS.truthy_string (cli_backgroundColor cl));
        [exact N | discriminate].
Qed.

(** X25: the command line applies no filter: unless the background is
    exactly [transparent], transparency is off and the colours given,
    when they are not empty, reach the encoder as they were typed. *)
Theorem cli_colors_unfiltered (cl : CommandLine) :
  cli_backgroundColor cl <> "transparent"%string ->
  cli_backgroundColor cl <> EmptyString ->
  cli_foregroundColor cl <> EmptyString ->
  transparent (cli_options cl) = false
  /\ dark (color (qrOptions (cli_options cl))) = cli_foregroundColor cl
  /\ light (color (qrOptions (cli_options cl))) = cli_backgroundColor cl.
Proof.
  intros N B F.
  unfold qrOptions, backgroundColorToUse, foreground_of, cli_options.
  cbn [color dark light transparent backgroundColor foregroundColor].
  destruct (String.eqb_spec (cli_backgroundColor cl) "transparent");
    [contradiction|].
  split; [reflexivity|].
  destruct (cli_foregroundColor cl); [contradiction|].
  destruct (cli_backgroundColor cl); [contradiction|].
  split; reflexivity.
Qed.

Lemma cli_colors_unfiltered_witness :
  transparent (cli_options (mkCommandLine "M" "300" "4" "FF5722"
                                          "TRANSPARENT" "square" "1")) = false
  /\ dark (color (qrOptions
                    (cli_options (mkCommandLine "M" "300" "4" "FF5722"
                                                "TRANSPARENT" "square" "1"))))
     = "FF5722"%string
  /\ light (color (qrOptions
                     (cli_options (mkCommandLine "M" "300" "4" "FF5722"
                                                 "TRANSPARENT" "square" "1"))))
     = "TRANSPARENT"%string.
Proof.
  apply (cli_colors_unfiltered
           (mkCommandLine "M" "300" "4" "FF5722" "TRANSPARENT" "square" "1"));
    discriminate.
Defined.

(* ================================================================== *)
(** ** The data prompt *)
(* ================================================================== *)

Lemma trim_end_nil (s : list Z) :
  Text.trim_end s = [] <-> forallb Text.is_white_space s = true.
Proof.
  induction s as [|u t IH]; [split; reflexivity|].
  cbn [Text.trim_end forallb].
  destruct (Text.trim_end t) as [|u' t'].
  - destruct (Text.is_white_space u); cbn [andb].
    + split; [intros _; apply IH; reflexivity | reflexivity].
    + split; discriminate.
  - split; [discriminate|]. intros H. apply andb_prop in H as [_ H].
    apply IH in H. discriminate H.
Qed.

Lemma forallb_trim_start (s : list Z) :
  forallb Text.is_white_space (Text.trim_start s)
  = forallb Text.is_white_space s.
Proof.
  induction s as [|u t IH]; [reflexivity|].
  cbn [Text.trim_start forallb].
  destruct (Text.is_white_space u) eqn:E; [exact IH|].
  cbn [forallb]. rewrite E. reflexivity.
Qed.

Lemma not_all_white_space (s : list Z) :
  forallb Text.is_white_space s = false
  <-> exists u, In u s /\ Text.is_white_space u = false.
Proof.
  split.
  - intros E. induction s as [|u t IH]; [discriminate|].
    cbn [forallb] in E. destruct (Text.is_white_space u) eqn:W.
    + destruct (IH E) as (v & Hv & Wv). exists v. split; [right|]; auto.
    + exists u. split; [left; reflexivity | exact W].
  - intros (u & Hu & W).
    destruct (forallb Text.is_white_space s) eqn:E; [|reflexivity].
    rewrite (proj1 (forallb_forall _ _) E u Hu) in W. discriminate W.
Qed.

(** X28: the data prompt accepts an input exactly when one of its code
    units is not white space; the empty input and the inputs made of
    white space only are refused. *)
Theorem validate_data_refuses_blank (input : list Z) :
  validate_data input = Accepted
  <-> exists u, In u input /\ Text.is_white_space u = false.
Proof.
  rewrite <- not_all_white_space.
  unfold validate_data, Text.trim.
  pose proof (trim_end_nil (Text.trim_start input)) as H.
  rewrite forallb_trim_start in H.
  destruct (Text.trim_end (Text.trim_start input)).
  - split; [discriminate|]. intros E.
    rewrite (proj1 H eq_refl) in E. discriminate E.
  - split; [|reflexivity]. intros _.
    destruct (forallb Text.is_white_space input); [|reflexivity].
    discriminate (proj2 H eq_refl).
Qed.

(** Two spaces (one of them ideographic), [hi], an em space. *)
Lemma validate_data_refuses_blank_witness :
  validate_data [32; 12288; 104; 105; 8195] = Accepted.
Proof.
  apply (proj2 (validate_data_refuses_blank [32; 12288; 104; 105; 8195])).
  exists 104. split; [cbn; auto | reflexivity].
Defined.

(* ================================================================== *)
(** ** The numbers of the command line *)
(* ================================================================== *)

Lemma decimal_digit_val (c : ascii) :
  is_decimal_digit c = true ->
  JS.digit_val c = Some (JS.code c - 48) /\ 0 <= JS.code c - 48 < 10
  /\ JS.is_space c = false.
Proof.
  destruct c as [[] [] [] [] [] [] [] []]; try discriminate;
    intros _; vm_compute; repeat split; congruence.
Qed.

Lemma parse_digits_decimal (s : string) (acc : option Z) :
  all_decimal s = true ->
  Num.parse_digits 10 s acc
  = match s with
    | EmptyString => acc
    | String _ _ =>
        Some (decimal_value s match acc with Some a => a | None => 0 end)
    end.
Proof.
  revert acc. induction s as [|c t IH]; intros acc H; [reflexivity|].
  cbn [all_decimal] in H. apply andb_prop in H as [Hc Ht].
  destruct (decimal_digit_val c Hc) as (E & Hd & _).
  cbn [Num.parse_digits decimal_value]. rewrite E.
  destruct (Z.ltb_spec (JS.code c - 48) 10); [|lia].
  rewrite (IH _ Ht). destruct t; reflexivity.
Qed.

Lemma decimal_value_nonneg (s : string) (acc : Z) :
  all_decimal s = true -> 0 <= acc -> 0 <= decimal_value s acc.
Proof.
  revert acc. induction s as [|c t IH]; intros acc H Hacc; [exact Hacc|].
  cbn [all_decimal] in H. apply andb_prop in H as [Hc Ht].
  destruct (decimal_digit_val c Hc) as (_ & Hd & _).
  cbn [decimal_value]. apply IH; [exact Ht | lia].
Qed.

(** [parseInt] on a string of decimal digits. *)
Lemma parseInt_decimal (s : string) :
  all_decimal s = true -> s <> EmptyString ->
  Num.parseInt s = Int (decimal_value s 0).
Proof.
  intros H N. destruct s as [|c1 t]; [contradiction|].
  pose proof (parse_digits_decimal _ None H) as P.
  cbn [all_decimal] in H. apply andb_prop in H as [H1 Ht].
  assert (Num.parseInt (String c1 t)
          = match Num.parse_digits 10 (String c1 t) None with
            | Some v => Int (1 * v)
            | None => NaN
            end) as ->.
  { destruct t as [|c2 t'].
    - destruct c1 as [[] [] [] [] [] [] [] []]; try discriminate H1;
        reflexivity.
    - cbn [all_decimal] in Ht. apply andb_prop in Ht as [H2 _].
      destruct c1 as [[] [] [] [] [] [] [] []]; try discriminate H1;
        destruct c2 as [[] [] [] [] [] [] [] []]; try discriminate H2;
        reflexivity. }
  rewrite P. rewrite Z.mul_1_l. reflexivity.
Qed.

(** X29: a size given on the command line as a string of at most 15
    decimal digits is read as the integer it denotes, leading zeros
    aside; the encoder is given that size, unless it is 0, in which
    case it is given 300. *)
Theorem cli_decimal_size (cl : CommandLine) :
  all_decimal (cli_size cl) = true ->
  cli_size cl <> EmptyString ->
  (String.length (cli_size cl) <= 15)%nat ->
  size (cli_options cl) = Some (Int (decimal_value (cli_size cl) 0))
  /\ 0 <= decimal_value (cli_size cl) 0
  /\ qr_width (qrOptions (cli_options cl))
     = if decimal_value (cli_size cl) 0 =? 0 then Int 300
       else Int (decimal_value (cli_size cl) 0).
Proof.
  intros H N _. unfold qrOptions, cli_options. cbn [qr_width size].
  rewrite (parseInt_decimal _ H N).
  split; [reflexivity|].
  split; [apply decimal_value_nonneg; [exact H | lia]|].
  unfold or_number, JS.truthy_number.
  destruct (decimal_value (cli_size cl) 0 =? 0); reflexivity.
Qed.

Lemma cli_decimal_size_witness :
  size (cli_options (mkCommandLine "M" "0512" "4" "#000000" "#FFFFFF"
                                   "square" "1")) = Some (Int 512)
  /\ qr_width (qrOptions
                 (cli_options (mkCommandLine "M" "0512" "4" "#000000"
                                             "#FFFFFF" "square" "1")))
     = Int 512.
Proof.
  destruct (cli_decimal_size
              (mkCommandLine "M" "0512" "4" "#000000" "#FFFFFF" "square" "1"))
    as (E & _ & W).
  - reflexivity.
  - discriminate.
  - cbn. lia.
  - split; [exact E | exact W].
Defined.

(* ================================================================== *)
(** ** [getQRInfo] *)
(* ================================================================== *)

Lemma substring_all (s : string) (n : nat) :
  (String.length s <= n)%nat -> String.substring 0 n s = s.
Proof.
  revert n. induction s as [|c t IH]; intros n H.
  - destruct n; reflexivity.
  - destruct n as [|n]; [cbn in H; lia|].
    cbn [String.substring]. rewrite IH; [reflexivity|]. cbn in H. lia.
Qed.

Lemma substring_length (s : string) (n : nat) :
  (n <= String.length s)%nat ->
  String.length (String.substring 0 n s) = n.
Proof.
  revert n. induction s as [|c t IH]; intros n H.
  - destruct n; [reflexivity | cbn in H; lia].
  - destruct n as [|n]; [reflexivity|].
    cbn [String.substring String.length]. rewrite IH; [reflexivity|].
    cbn in H. lia.
Qed.

Lemma append_length (s1 s2 : string) :
  String.length (s1 ++ s2) = (String.length s1 + String.length s2)%nat.
Proof.
  induction s1 as [|c t IH]; [reflexivity|].
  cbn [String.append String.length]. rewrite IH. reflexivity.
Qed.

Lemma append_empty (s : string) : (s ++ "")%string = s.
Proof.
  induction s as [|c t IH]; [reflexivity|].
  cbn [String.append]. rewrite IH. reflexivity.
Qed.

Lemma substring_split (s : string) (n : nat) :
  (n <= String.length s)%nat ->
  s = (String.substring 0 n s
       ++ String.substring n (String.length s - n) s)%string.
Proof.
  revert n. induction s as [|c t IH]; intros n H.
  - destruct n; [reflexivity | cbn in H; lia].
  - destruct n as [|n].
    + cbn [String.substring String.append String.length Nat.sub].
      rewrite (substring_all t (String.length t)) by lia. reflexivity.
    + cbn [String.substring String.append String.length Nat.sub].
      rewrite <- IH by (cbn in H; lia). reflexivity.
Qed.

(** X30: the data line of [getQRInfo] shows a text of at most 50
    characters as it is, and a longer text as 53 characters: the first
    50 characters of the text followed by three dots. *)
Theorem info_data_length (text : string) :
  ((50 <? String.length text)%nat = false -> info_data text = text)
  /\ ((50 <? String.length text)%nat = true ->
      exists head rest : string,
        text = (head ++ rest)%string /\ String.length head = 50%nat
        /\ info_data text = (head ++ "...")%string
        /\ String.length (info_data text) = 53%nat).
Proof.
  unfold info_data.
  destruct (Nat.ltb_spec 50 (String.length text)) as [L|L].
  - split; [discriminate|]. intros _.
    exists (String.substring 0 50 text),
           (String.substring 50 (String.length text - 50) text).
    split; [apply substring_split; lia|].
    split; [apply substring_length; lia|].
    split; [reflexivity|].
    rewrite append_length, substring_length by lia. reflexivity.
  - split; [|discriminate]. intros _.
    rewrite append_empty, substring_all by lia. reflexivity.
Qed.

Lemma info_data_length_witness :
  info_data "https://example.com" = "https://example.com"%string
  /\ info_data
       "https://example.com/a/rather/long/path/to/some/page?with=a&query=string"
     = "https://example.com/a/rather/long/path/to/some/pag..."%string.
Proof.
  split.
  - apply (proj1 (info_data_length "https://example.com")). reflexivity.
  - destruct (proj2 (info_data_length
        "https://example.com/a/rather/long/path/to/some/page?with=a&query=string")
        eq_refl) as (head & rest & _ & _ & E & _).
    vm_compute. reflexivity.
Defined.
